(** * vema: a vending machine model

    Shallow embedding of [vema.py]: the [Inventory] class, the
    [VendingMachineModel] class and the greedy change algorithm
    [amount_to_coins], followed by the properties proved about them.

    Modelling choices, all read off the Python source:
    - Python [int] is unbounded: [Z].  [//] and [%] are floor division and
      remainder with the sign of the divisor: [Z.div] and [Z.modulo].
    - Python [float] is IEEE 754 binary64: [spec_float] with [prec = 53] and
      [emax = 1024], operations rounded to nearest, ties to even.
    - An exception is a value: methods run in a state monad whose outcome
      is either a returned value or a raised exception, together with the
      state reached (a method can raise after it has mutated).
    - The [_products] dict is a [gmap Z Product.t].  Each key owns its own
      product record, so distinct keys never alias.  An inventory is taken
      on its own: the sharing of records between two inventories built
      from the same list is not modelled.
    - Amounts of currency and prices are floats, as in the docstrings, the
      default catalog and the tests; cents, stocks and ids are ints.
    - The prompt loop, [tabulate] and [list_products] are input and output
      only and are left out.
    - A list repetition [[c] * n] raises [OverflowError] when [n] does not
      fit an index ([sys.maxsize], taken for a 64-bit build).  Running out
      of memory is not modelled: a list whose length fits an index is
      built. *)

From Stdlib Require Import ZArith Lia Ascii.
From Stdlib Require Import Floats.SpecFloat.
From stdpp Require Import gmap strings list sorting pretty.

Local Open Scope string_scope.
Local Open Scope list_scope.
Local Open Scope Z_scope.

(** ** Exceptions and outcomes *)

Inductive exn : Set :=
| ValueError
| OverflowError
| ZeroDivisionError.

Inductive outcome (A : Type) : Type :=
| Ok (a : A)
| Raise (e : exn).
Arguments Ok {A} a.
Arguments Raise {A} e.

#[global] Instance outcome_ret : MRet outcome := λ A a, Ok a.

#[global] Instance outcome_bind : MBind outcome := λ A B k r,
  match r with
  | Ok a => k a
  | Raise e => Raise e
  end.

(** ** Python numbers *)

Module Py.

Definition float : Set := spec_float.

Definition prec : Z := 53.
Definition emax : Z := 1024.

(** A Python number that is either an [int] or a [float]; [max(0, x)]
    with a float [x] returns one or the other. *)
Inductive number : Set :=
| Int (z : Z)
| Float (f : float).

(** [float(z)] for an int small enough to be exact. *)
Definition float_of_small_int (z : Z) : float :=
  binary_normalize prec emax z 0 false.

Definition f100 : float := Eval vm_compute in float_of_small_int 100.

(** [x * 100] for a float [x]: the int is converted, then binary64
    multiplication. *)
Definition mul100 (x : float) : float := SFmul prec emax x f100.

(** [x > 0] for a float [x] and the int [0]. *)
Definition gt0 (x : float) : bool := SFltb (S754_zero false) x.

(** [max(0, x)]: the first argument is kept unless [x > 0]. *)
Definition max0 (x : float) : number :=
  if gt0 x then Float x else Int 0.

(** [int(x)] for a float: truncation toward zero; NaN and the
    infinities raise. *)
Definition int_of_float (x : float) : outcome Z :=
  match x with
  | S754_nan => Raise ValueError
  | S754_infinity _ => Raise OverflowError
  | S754_zero _ => Ok 0
  | S754_finite s m e => Ok (cond_Zopp s (Z.shiftl (Z.pos m) e))
  end.

(** [int(x)] for a number. *)
Definition int (x : number) : outcome Z :=
  match x with
  | Int z => Ok z
  | Float f => int_of_float f
  end.

(** [math.floor(x)] for a float: rounding toward minus infinity. *)
Definition floor (x : float) : outcome Z :=
  match x with
  | S754_nan => Raise ValueError
  | S754_infinity _ => Raise OverflowError
  | S754_zero _ => Ok 0
  | S754_finite s m e => Ok (Z.shiftl (cond_Zopp s (Z.pos m)) e)
  end.

(** [a / b] for two ints: the correctly rounded quotient. *)
Definition truediv (a b : Z) : outcome float :=
  if b =? 0 then Raise ZeroDivisionError
  else if a =? 0 then Ok (S754_zero (b <? 0))
  else
    let '(q, e, l) := SFdiv_core_binary prec emax (Z.abs a) 0 (Z.abs b) 0 in
    match binary_round_aux prec emax (xorb (a <? 0) (b <? 0)) q e l with
    | S754_infinity _ => Raise OverflowError
    | r => Ok r
    end.

(** [sys.maxsize]: the largest index, on a 64-bit build. *)
Definition maxsize : Z := 2 ^ 63 - 1.

(** Whether an int fits an index-sized integer. *)
Definition fits_index (n : Z) : bool := (- maxsize - 1 <=? n) && (n <=? maxsize).

(** [[c] * n]: [n] copies, none for a negative [n]; [OverflowError] when
    [n] does not fit an index. *)
Definition repeat (c n : Z) : outcome (list Z) :=
  if fits_index n then Ok (replicate (Z.to_nat n) c) else Raise OverflowError.

(** A decimal literal [n / 10^k], e.g. [1.20] is [literal 120 2]: the
    nearest binary64 value. *)
Definition literal (n : Z) (k : Z) : float :=
  match truediv n (10 ^ k) with
  | Ok f => f
  | Raise _ => S754_infinity (n <? 0)
  end.

(** [x * 100] for a number: exact on ints. *)
Definition mul100_number (x : number) : number :=
  match x with
  | Int z => Int (z * 100)
  | Float f => Float (mul100 f)
  end.

(** [math.floor(x)] for a number. *)
Definition floor_number (x : number) : outcome Z :=
  match x with
  | Int z => Ok z
  | Float f => floor f
  end.

(** [x >= 0] for a float [x] and the int [0]. *)
Definition ge0 (x : float) : bool := SFleb (S754_zero false) x.

(** [str(z)] for an int. *)
Definition str_int (z : Z) : string := pretty z.

Definition two_digits (k : Z) : string :=
  if k <? 10 then "0" +:+ pretty k else pretty k.

(** Nearest integer, ties to even, of [n * 2^e] for [0 <= n]. *)
Definition round_half_even (n e : Z) : Z :=
  if 0 <=? e then Z.shiftl n e
  else
    let d := 2 ^ (- e) in
    let q := n / d in
    match (2 * (n mod d)) ?= d with
    | Lt => q
    | Gt => q + 1
    | Eq => if Z.even q then q else q + 1
    end.

(** [f"{x:.2f}"]: the exact value rounded to two decimals. *)
Definition format_2f (x : float) : string :=
  match x with
  | S754_nan => "nan"
  | S754_infinity s => if s then "-inf" else "inf"
  | S754_zero s => (if s then "-" else "") +:+ "0.00"
  | S754_finite s m e =>
      let n := round_half_even (Z.pos m * 100) e in
      (if s then "-" else "") +:+ pretty (n / 100) +:+ "." +:+ two_digits (n mod 100)
  end.

End Py.

(** ** Methods: state passing with exceptions *)

(** A method body over an object of type [S]: it returns a value or raises,
    and leaves the object in some state either way. *)
Definition prog (S A : Type) : Type := S → outcome A * S.

#[global] Instance prog_ret {S} : MRet (prog S) := λ A a s, (Ok a, s).

#[global] Instance prog_bind {S} : MBind (prog S) := λ A B k c s,
  match c s with
  | (Ok a, s') => k a s'
  | (Raise e, s') => (Raise e, s')
  end.

Definition get {S} : prog S S := λ s, (Ok s, s).
Definition put {S} (s : S) : prog S unit := λ _, (Ok tt, s).

(** A pure computation that may raise, run inside a method. *)
Definition lift {S A} (r : outcome A) : prog S A := λ s, (r, s).

(** Run a method of a component object held in a field. *)
Definition zoom {S T A} (proj : S → T) (upd : T → S → S) (c : prog T A) : prog S A :=
  λ s, let '(r, t) := c (proj s) in (r, upd t s).

(** ** Colored messages ([colorama.Fore]) *)

Module Fore.
Definition ESC : string := String "027"%char "".
Definition RED : string := ESC +:+ "[31m".
Definition GREEN : string := ESC +:+ "[32m".
Definition YELLOW : string := ESC +:+ "[33m".
Definition RESET : string := ESC +:+ "[39m".
End Fore.

Definition msg_error (s : string) : string := Fore.RED +:+ s +:+ Fore.RESET.
Definition msg_attn (s : string) : string := Fore.YELLOW +:+ s +:+ Fore.RESET.
Definition msg_confirm (s : string) : string := Fore.GREEN +:+ s +:+ Fore.RESET.

(** ** Products *)

Module Product.
(** One entry of the catalog: a dict with the keys ["id"], ["name"],
    ["price"] and ["stock"]. *)
Record t : Set := mk {
  id : Z;
  name : string;
  price : Py.float;
  stock : Z
}.

(** [prod["stock"] += -1] *)
Definition take_one (p : t) : t :=
  {| id := id p; name := name p; price := price p; stock := stock p + -1 |}.
End Product.

Definition DATABASE : list Product.t :=
  [ Product.mk 1 "Water" (Py.literal 50 2) 10;
    Product.mk 2 "Coke" (Py.literal 100 2) 10;
    Product.mk 3 "Diet Coke" (Py.literal 120 2) 10;
    Product.mk 4 "Iced Tea" (Py.literal 100 2) 10;
    Product.mk 5 "Chocolate" (Py.literal 150 2) 10;
    Product.mk 6 "Candy" (Py.literal 95 2) 10;
    Product.mk 7 "Chips" (Py.literal 250 2) 10;
    Product.mk 8 "Espresso" (Py.literal 120 2) 10;
    Product.mk 9 "Coffee" (Py.literal 150 2) 10 ].

Definition DEFAULT_COINS : gset Z := {[ 5; 10; 20; 50; 100 ]}.

(** [sorted(xs, reverse=True)] on ints. *)
Definition sorted_reverse (xs : list Z) : list Z := merge_sort (flip Z.le) xs.

(** ** Inventory *)

Module Inventory.

Record t : Type := mk { _products : gmap Z Product.t }.

(** [{p["id"]: p for p in pl}]: a later entry replaces an earlier one
    with the same id. *)
Definition __init__ (product_list : option (list Product.t)) : t :=
  let pl := match product_list with Some l => l | None => DATABASE end in
  mk (foldl (λ d p, <[Product.id p := p]> d) ∅ pl).

Definition set_product (id : Z) (p : Product.t) (self : t) : t :=
  mk (<[id := p]> (_products self)).

Definition msg_unknown (id : Z) : string :=
  msg_error ("No product with id " +:+ Py.str_int id +:+ ".").

Definition msg_sold_out (id : Z) (prod : Product.t) : string :=
  msg_error ("Product " +:+ Py.str_int id +:+ " (" +:+ Product.name prod +:+ ") is sold out.").

Definition msg_funds : string := msg_error "Insufficient funds.".

Definition msg_retrieved (prod : Product.t) : string :=
  "You retrieved 1 " +:+ Product.name prod +:+ " for the price of €"
    +:+ Py.format_2f (Product.price prod) +:+ ".".

(** [int(prod["price"] * 100)] *)
Definition price_ct (prod : Product.t) : outcome Z :=
  Py.int_of_float (Py.mul100 (Product.price prod)).

Definition retrieve_product (id amount_ct : Z) : prog t (option Z * string) :=
  self ← get;
  match _products self !! id with
  | None => mret (None, msg_unknown id)
  | Some prod =>
      if Product.stock prod =? 0 then mret (None, msg_sold_out id prod)
      else
        price_ct ← lift (price_ct prod);
        if price_ct >? amount_ct then mret (None, msg_funds)
        else
          let prod' := Product.take_one prod in
          _ ← put (set_product id prod' self);
          mret (Some price_ct, msg_retrieved prod')
  end.

End Inventory.

(** ** VendingMachineModel *)

(** What [amount_to_coins] returns when it returns a list: ints, or the
    formatted strings of the [prettify] mode. *)
Inductive coin_list : Set :=
| Coins (l : list Z)
| PrettyCoins (l : list string).

Module VendingMachineModel.

Record t : Type := mk {
  _inventory : Inventory.t;
  _balance : Z;
  _coins : list Z
}.

Definition __init__ (initial_balance : Z) (inventory : option Inventory.t) : t :=
  {| _inventory := match inventory with
                   | Some inv => inv
                   | None => Inventory.__init__ None
                   end;
     _balance := initial_balance;
     _coins := sorted_reverse (elements DEFAULT_COINS) |}.

Definition set_balance (b : Z) (self : t) : t :=
  {| _inventory := _inventory self; _balance := b; _coins := _coins self |}.

Definition set_inventory (inv : Inventory.t) (self : t) : t :=
  {| _inventory := inv; _balance := _balance self; _coins := _coins self |}.

Definition balance : prog t Z := self ← get; mret (_balance self).

Definition balance_eur : prog t Py.float :=
  self ← get; lift (Py.truediv (_balance self) 100).

(** The loop of [amount_to_coins], from the state [(result, rest)]. *)
Fixpoint coin_loop (coins : list Z) (result : list Z) (rest : Z)
  : outcome (list Z * Z) :=
  match coins with
  | [] => Ok (result, rest)
  | c :: coins' =>
      if c =? 0 then Raise ZeroDivisionError
      else
        match Py.repeat c (rest / c) with
        | Ok more => coin_loop coins' (result ++ more) (rest mod c)
        | Raise e => Raise e
        end
  end.

(** [f"{int(c/100)}€" if c >= 100 else f"{c}ct"] *)
Definition pretty_coin (c : Z) : outcome string :=
  if c >=? 100 then
    q ← Py.truediv c 100;
    n ← Py.int_of_float q;
    mret (Py.str_int n +:+ "€")
  else mret (Py.str_int c +:+ "ct").

(** The static method; [None] is the failure value. *)
Definition amount_to_coins (amount_ct : Z) (coin_set : list Z) (prettify : bool)
  : outcome (option coin_list) :=
  let coins := sorted_reverse coin_set in
  '(result, rest) ← coin_loop coins [] amount_ct;
  if negb (rest =? 0) then mret None
  else if prettify then
    result' ← mapM pretty_coin result;
    mret (Some (PrettyCoins result'))
  else mret (Some (Coins result)).

Definition _amount_to_coins (amount_ct : Z) (prettify : bool)
  : prog t (option coin_list) :=
  self ← get; lift (amount_to_coins amount_ct (_coins self) prettify).

Definition insert_money (amount_eur : Py.float) : prog t Py.float :=
  self ← get;
  cents ← lift (Py.int (Py.max0 (Py.mul100 amount_eur)));
  _ ← put (set_balance (_balance self + cents) self);
  b ← balance;
  lift (Py.truediv b 100).

Definition return_coins (prettify : bool) : prog t (option coin_list) :=
  b ← balance;
  result ← _amount_to_coins b prettify;
  self ← get;
  _ ← put (set_balance 0 self);
  mret result.

Definition buy_product (id : Z) : prog t (option Z * string) :=
  b ← balance;
  '(amount_paid_ct, msg) ← zoom _inventory set_inventory (Inventory.retrieve_product id b);
  match amount_paid_ct with
  | Some paid =>
      self ← get;
      _ ← put (set_balance (_balance self - paid) self);
      mret (amount_paid_ct, msg)
  | None => mret (amount_paid_ct, msg)
  end.

End VendingMachineModel.

(** ** The catalog of [test_vema.py] *)

Definition test_database : list Product.t :=
  [ Product.mk 1 "Pinot Noir" (Py.literal 450 2) 1;
    Product.mk 2 "Red Bull + Vodka" (Py.literal 350 2) 2;
    Product.mk 3 "Soy Milk" (Py.literal 100 2) 0 ].

Definition test_inventory : Inventory.t := Inventory.__init__ (Some test_database).

Definition test_machine (initial_balance : Z) : VendingMachineModel.t :=
  VendingMachineModel.__init__ initial_balance (Some test_inventory).

(** The binary64 value [2^1020], about 1.1e307. *)
Definition huge_amount : Py.float := S754_finite false 4503599627370496 968.

(** ** Predicates used in the statements *)

(** A mantissa and exponent whose value stays below [2^E]. *)
Definition below (E : Z) (m e : Z) : Prop := 0 ≤ m < 2 ^ (E - e) ∧ e ≤ E - 53.

(** The shape of a float whose sign bit is [s] and that is not NaN. *)
Inductive signed (s : bool) : Py.float → Prop :=
| signed_zero : signed s (S754_zero s)
| signed_infinity : signed s (S754_infinity s)
| signed_finite m e : signed s (S754_finite s m e).

(** The five paths through [retrieve_product]: what it returns or raises
    and the inventory it leaves. *)
Inductive retrieve_path (inv : Inventory.t) (id amount_ct : Z)
  : outcome (option Z * string) → Inventory.t → Prop :=
| path_unknown :
    Inventory._products inv !! id = None →
    retrieve_path inv id amount_ct (Ok (None, Inventory.msg_unknown id)) inv
| path_sold_out prod :
    Inventory._products inv !! id = Some prod → Product.stock prod = 0 →
    retrieve_path inv id amount_ct (Ok (None, Inventory.msg_sold_out id prod)) inv
| path_raise prod e :
    Inventory._products inv !! id = Some prod → Product.stock prod ≠ 0 →
    Inventory.price_ct prod = Raise e →
    retrieve_path inv id amount_ct (Raise e) inv
| path_funds prod c :
    Inventory._products inv !! id = Some prod → Product.stock prod ≠ 0 →
    Inventory.price_ct prod = Ok c → amount_ct < c →
    retrieve_path inv id amount_ct (Ok (None, Inventory.msg_funds)) inv
| path_success prod c :
    Inventory._products inv !! id = Some prod → Product.stock prod ≠ 0 →
    Inventory.price_ct prod = Ok c → c ≤ amount_ct →
    retrieve_path inv id amount_ct
      (Ok (Some c, Inventory.msg_retrieved (Product.take_one prod)))
      (Inventory.set_product id (Product.take_one prod) inv).

(** [retrievals id n inv inv']: [n] successful calls of [retrieve_product]
    for [id] in a row, with any amounts offered, lead from [inv] to
    [inv']. *)
Inductive retrievals (id : Z) : nat → Inventory.t → Inventory.t → Prop :=
| retrievals_O inv : retrievals id 0 inv inv
| retrievals_S n inv amount_ct paid msg inv1 inv2 :
    Inventory.retrieve_product id amount_ct inv = (Ok (Some paid, msg), inv1) →
    retrievals id n inv1 inv2 →
    retrievals id (S n) inv inv2.

(** Two products that differ at most in their stock. *)
Definition same_but_stock (p q : Product.t) : Prop :=
  Product.id q = Product.id p ∧ Product.name q = Product.name p
  ∧ Product.price q = Product.price p.

(** Unfolds the monad operations of a method body. *)
Ltac run_prog :=
  unfold mbind, prog_bind, mret, prog_ret, get, put, lift, zoom; simpl.

(** ** Sequences of operations on a machine *)

(** The three operations a caller performs on a machine. *)
Inductive operation : Set :=
| InsertMoney (amount_eur : Py.float)
| BuyProduct (id : Z)
| ReturnCoins (prettify : bool).

(** The machine after an operation, whether it returned or raised. *)
Definition after (o : operation) (m : VendingMachineModel.t) : VendingMachineModel.t :=
  match o with
  | InsertMoney amount_eur => (VendingMachineModel.insert_money amount_eur m).2
  | BuyProduct id => (VendingMachineModel.buy_product id m).2
  | ReturnCoins prettify => (VendingMachineModel.return_coins prettify m).2
  end.

Definition after_all (os : list operation) (m : VendingMachineModel.t)
  : VendingMachineModel.t :=
  foldl (λ m o, after o m) m os.

(** What [__init__] establishes about the denominations; no method assigns
    [_coins] afterwards. *)
Definition default_coins (m : VendingMachineModel.t) : Prop :=
  VendingMachineModel._coins m = sorted_reverse (elements DEFAULT_COINS).

(** ** The cents of an insertion, in the words of the specification *)

(** [floor(max(0, amount_currency) * 100)], evaluated as Python does. *)
Definition cents_spec (amount_currency : Py.float) : outcome Z :=
  Py.floor_number (Py.mul100_number (Py.max0 amount_currency)).

(** ** The greedy strategy, in the words of the specification *)

(** Python's [sum] on a list of ints. *)
Definition sum (l : list Z) : Z := foldr Z.add 0 l.

(** For each denomination of [denoms] in turn: take [count = remaining //
    denom] copies and reduce [remaining] by [count * denom].  Returns the
    coins taken and the remainder left over. *)
Fixpoint greedy_spec (denoms : list Z) (remaining : Z) : list Z * Z :=
  match denoms with
  | [] => ([], remaining)
  | denom :: denoms' =>
      let count := remaining / denom in
      let '(coins, leftover) := greedy_spec denoms' (remaining - count * denom) in
      (replicate (Z.to_nat count) denom ++ coins, leftover)
  end.

(** ** Further notions for the inventory *)

(** Every product is stored under its own id. *)
Definition well_keyed (inv : Inventory.t) : Prop :=
  ∀ k p, Inventory._products inv !! k = Some p → Product.id p = k.

(** No product has a negative stock. *)
Definition stocked (inv : Inventory.t) : Prop :=
  ∀ k p, Inventory._products inv !! k = Some p → 0 ≤ Product.stock p.

(** The inventory after a series of [retrieve_product] calls, each given as
    (id, amount offered), whatever each call returned. *)
Definition retrieve_all (calls : list (Z * Z)) (inv : Inventory.t) : Inventory.t :=
  foldl (λ inv call, (Inventory.retrieve_product call.1 call.2 inv).2) inv calls.

(** ** The rendering of the machine's own coins *)

(** How [prettify] shows a coin of the default denominations: one euro for
    100, cents for the others. *)
Definition pretty_default (c : Z) : string :=
  if c =? 100 then "1€" else Py.str_int c +:+ "ct".

(** ** [decolor] of [test_vema.py] *)

(** [s.replace(old, "")]: the occurrences of [old] are found from left to
    right, without overlap, and dropped.  [skip] counts the characters of a
    found occurrence still to drop. *)
Fixpoint remove_go (old : string) (skip : nat) (s : string) : string :=
  match s with
  | EmptyString => EmptyString
  | String ch s' =>
      match skip with
      | S k => remove_go old k s'
      | O =>
          if String.prefix old s
          then remove_go old (String.length old - 1) s'
          else String ch (remove_go old 0 s')
      end
  end.

Definition remove (old s : string) : string :=
  match old with
  | EmptyString => s
  | _ => remove_go old 0 s
  end.

Definition decolor (s : string) : string :=
  remove Fore.RESET (remove Fore.GREEN (remove Fore.RED (remove Fore.YELLOW s))).

(** The four color codes [decolor] looks for. *)
Definition color_codes : list string :=
  [Fore.YELLOW; Fore.RED; Fore.GREEN; Fore.RESET].

(** A string without the escape character. *)
Fixpoint plain (s : string) : bool :=
  match s with
  | EmptyString => true
  | String ch s' => negb (Ascii.eqb ch "027") && plain s'
  end.


(** Whether every count of that pass fits an index. *)
Fixpoint counts_fit (denoms : list Z) (remaining : Z) : bool :=
  match denoms with
  | [] => true
  | denom :: denoms' =>
      let count := remaining / denom in
      Py.fits_index count && counts_fit denoms' (remaining - count * denom)
  end.

(** * Properties *)

(** ** Facts about binary64 rounding *)

Section FloatFacts.

Lemma shr_1_nonneg mrs : 0 ≤ shr_m mrs → 0 ≤ shr_m (shr_1 mrs).
Proof. destruct mrs as [[|[p|p|]|[p|p|]] r t]; simpl; lia. Qed.

Lemma iter_shr_1_nonneg p : ∀ mrs,
  0 ≤ shr_m mrs → 0 ≤ shr_m (SpecFloat.iter_pos shr_1 p mrs).
Proof.
  induction p as [p IH|p IH|]; intros mrs Hm; simpl.
  - apply IH, IH, shr_1_nonneg, Hm.
  - apply IH, IH, Hm.
  - apply shr_1_nonneg, Hm.
Qed.

Lemma shr_nonneg mrs e n : 0 ≤ shr_m mrs → 0 ≤ shr_m (shr mrs e n).1.
Proof.
  intros Hm. destruct n as [|p|p]; simpl; auto using iter_shr_1_nonneg.
Qed.

Lemma shr_record_of_loc_m m l : shr_m (shr_record_of_loc m l) = m.
Proof. destruct l as [|[]]; reflexivity. Qed.

Lemma shr_fexp_nonneg m e l : 0 ≤ m → 0 ≤ shr_m (shr_fexp Py.prec Py.emax m e l).1.
Proof.
  intros Hm. unfold shr_fexp. apply shr_nonneg.
  rewrite shr_record_of_loc_m. exact Hm.
Qed.

Lemma round_nearest_even_nonneg m l : 0 ≤ m → 0 ≤ round_nearest_even m l.
Proof.
  intros Hm. destruct l as [|[]]; simpl; try lia.
  destruct (Z.even m); lia.
Qed.

(** Rounding a non-negative mantissa keeps the sign bit and never yields
    NaN. *)
Lemma binary_round_aux_signed s m e l :
  0 ≤ m → signed s (binary_round_aux Py.prec Py.emax s m e l).
Proof.
  intros Hm. unfold binary_round_aux.
  pose proof (shr_fexp_nonneg m e l Hm) as H1.
  destruct (shr_fexp Py.prec Py.emax m e l) as [mrs' e'] eqn:E1. simpl in H1.
  pose proof (shr_fexp_nonneg _ e' loc_Exact
                (round_nearest_even_nonneg _ (loc_of_shr_record mrs') H1)) as H2.
  destruct (shr_fexp Py.prec Py.emax _ e' loc_Exact) as [mrs'' e''] eqn:E2.
  simpl in H2.
  destruct (shr_m mrs'') as [|p|p].
  - constructor.
  - destruct (e'' <=? Py.emax - Py.prec); constructor.
  - lia.
Qed.

(** [x * 100] keeps the sign of a float that is not NaN. *)
Lemma mul100_signed s x : signed s x → signed s (Py.mul100 x).
Proof.
  intros [| |m e]; unfold Py.mul100, Py.f100; simpl SFmul;
    rewrite ?xorb_false_r; try constructor.
  apply binary_round_aux_signed. lia.
Qed.

Lemma gt0_signed_true x : Py.gt0 x = true → signed false x.
Proof. destruct x as [s|[]| |[] m e]; try discriminate; constructor. Qed.

Lemma gt0_signed_false x : signed true x → Py.gt0 x = false.
Proof. intros [| |m e]; reflexivity. Qed.

(** A float that is not greater than zero is NaN, a zero or negative. *)
Lemma gt0_false_cases x :
  Py.gt0 x = false → x = S754_nan ∨ (∃ s, x = S754_zero s) ∨ signed true x.
Proof.
  destruct x as [s|[]| |[] m e]; try discriminate; intros _; eauto using signed.
Qed.

Lemma gt0_mul100_false x : Py.gt0 x = false → Py.gt0 (Py.mul100 x) = false.
Proof.
  intros H. destruct (gt0_false_cases x H) as [->|[[s ->]|Hs]].
  - reflexivity.
  - reflexivity.
  - apply gt0_signed_false, mul100_signed, Hs.
Qed.

(** On a float with a clear sign bit, truncation and floor agree. *)
Lemma int_of_float_floor x : signed false x → Py.int_of_float x = Py.floor x.
Proof. intros [| |m e]; reflexivity. Qed.

Lemma int_max0_signed x : signed false x → Py.int (Py.max0 x) = Py.int_of_float x.
Proof. intros [| |m e]; reflexivity. Qed.

(** *** Int true division does not overflow on moderate operands *)

Lemma shr_1_bound mrs k :
  1 ≤ k → 0 ≤ shr_m mrs < 2 ^ k → 0 ≤ shr_m (shr_1 mrs) < 2 ^ (k - 1).
Proof.
  intros Hk [H0 Hlt].
  assert (2 ^ k = 2 * 2 ^ (k - 1)) as E.
  { rewrite <- Z.pow_succ_r by lia. f_equal. lia. }
  destruct mrs as [[|[p|p|]|[p|p|]] r t]; simpl in *; try lia.
Qed.

Lemma iter_shr_1_bound p : ∀ mrs k,
  Z.pos p ≤ k → 0 ≤ shr_m mrs < 2 ^ k →
  0 ≤ shr_m (SpecFloat.iter_pos shr_1 p mrs) < 2 ^ (k - Z.pos p).
Proof.
  induction p as [p IH|p IH|]; intros mrs k Hk Hm; simpl.
  - replace (k - Z.pos p~1) with (k - 1 - Z.pos p - Z.pos p) by lia.
    apply IH; [lia|]. apply IH; [lia|]. apply shr_1_bound; [lia|done].
  - replace (k - Z.pos p~0) with (k - Z.pos p - Z.pos p) by lia.
    apply IH; [lia|]. apply IH; [lia|done].
  - apply shr_1_bound; [lia|done].
Qed.

Lemma digits2_pos_lower p : 2 ^ (Z.pos (digits2_pos p) - 1) ≤ Z.pos p.
Proof.
  induction p as [p IH|p IH|]; simpl digits2_pos.
  - rewrite Pos2Z.inj_succ. replace (Z.succ (Z.pos (digits2_pos p)) - 1)
      with (Z.succ (Z.pos (digits2_pos p) - 1)) by lia.
    rewrite Z.pow_succ_r by lia. lia.
  - rewrite Pos2Z.inj_succ. replace (Z.succ (Z.pos (digits2_pos p)) - 1)
      with (Z.succ (Z.pos (digits2_pos p) - 1)) by lia.
    rewrite Z.pow_succ_r by lia. lia.
  - simpl. lia.
Qed.

Lemma Zdigits2_bound m k : 0 ≤ k → 0 ≤ m < 2 ^ k → Zdigits2 m ≤ k.
Proof.
  intros Hk [H0 Hlt]. destruct m as [|p|p]; simpl; try lia.
  pose proof (digits2_pos_lower p) as Hp.
  destruct (Z.le_gt_cases (Z.pos (digits2_pos p)) k) as [|Hgt]; [done|].
  assert (2 ^ k ≤ 2 ^ (Z.pos (digits2_pos p) - 1)) by (apply Z.pow_le_mono_r; lia).
  lia.
Qed.

Lemma shr_fexp_below E m e l :
  -1021 ≤ E → below E m e →
  below E (shr_m (shr_fexp Py.prec Py.emax m e l).1) (shr_fexp Py.prec Py.emax m e l).2.
Proof.
  intros HE [Hm He]. unfold shr_fexp, shr.
  assert (Zdigits2 m ≤ E - e) as Hd by (apply Zdigits2_bound; lia).
  assert (fexp Py.prec Py.emax (Zdigits2 m + e) ≤ E - 53) as Hf.
  { unfold fexp, emin, Py.prec, Py.emax. lia. }
  destruct (fexp Py.prec Py.emax (Zdigits2 m + e) - e) as [|n|n] eqn:En; simpl.
  - rewrite shr_record_of_loc_m. done.
  - split; [|lia].
    replace (E - (e + Z.pos n)) with (E - e - Z.pos n) by lia.
    apply iter_shr_1_bound; [lia|]. by rewrite shr_record_of_loc_m.
  - rewrite shr_record_of_loc_m. done.
Qed.

Lemma round_nearest_even_below E m e l :
  below E m e → below (E + 1) (round_nearest_even m l) e.
Proof.
  intros [Hm He]. split; [|lia].
  assert (2 ^ (E + 1 - e) = 2 * 2 ^ (E - e)) as ->.
  { rewrite <- Z.pow_succ_r by lia. f_equal. lia. }
  destruct l as [|[]]; simpl; try lia. destruct (Z.even m); lia.
Qed.

Lemma binary_round_aux_below s m e l :
  below 1023 m e → ∀ s', binary_round_aux Py.prec Py.emax s m e l ≠ S754_infinity s'.
Proof.
  intros Hb s'. unfold binary_round_aux.
  pose proof (shr_fexp_below 1023 m e l ltac:(lia) Hb) as H1.
  destruct (shr_fexp Py.prec Py.emax m e l) as [mrs' e'] eqn:E1. simpl in H1.
  apply (round_nearest_even_below _ _ _ (loc_of_shr_record mrs')) in H1.
  pose proof (shr_fexp_below (1023 + 1) _ e' loc_Exact ltac:(lia) H1) as H2.
  destruct (shr_fexp Py.prec Py.emax _ e' loc_Exact) as [mrs'' e''] eqn:E2.
  simpl in H2. destruct H2 as [_ H2].
  destruct (shr_m mrs'') as [|p|p]; try discriminate.
  destruct (Z.leb_spec e'' (Py.emax - Py.prec)); [discriminate|].
  unfold Py.emax, Py.prec in *. lia.
Qed.

Lemma truediv_100_returns b : Z.abs b < 2 ^ 1023 → ∃ f, Py.truediv b 100 = Ok f.
Proof.
  intros Hb. unfold Py.truediv. simpl (100 =? 0). cbv iota.
  destruct (Z.eqb_spec b 0) as [|Hnz]; [by eexists|].
  destruct (SFdiv_core_binary Py.prec Py.emax (Z.abs b) 0 (Z.abs 100) 0)
    as [[q e] l] eqn:Ed.
  assert (below 1023 q e) as Hq.
  { unfold SFdiv_core_binary in Ed.
    set (e' := Z.min _ _) in Ed.
    assert (e' ≤ 0) as He' by (subst e'; lia).
    set (m' := match 0 - 0 - e' with Z.pos _ => _ | _ => _ end) in Ed.
    assert (0 ≤ m' < 2 ^ (1023 - e')) as Hm'.
    { subst m'. destruct (0 - 0 - e') as [|n|n] eqn:En.
      - replace e' with 0 by lia. lia.
      - rewrite Z.shiftl_mul_pow2 by lia.
        replace (1023 - e') with (1023 + Z.pos n) by lia.
        rewrite Z.pow_add_r by lia.
        assert (0 < 2 ^ Z.pos n) by (apply Z.pow_pos_nonneg; lia). nia.
      - lia. }
    clearbody m' e'.
    change (Z.abs 100) with 100 in Ed.
    pose proof (Z.div_eucl_eq m' 100 ltac:(lia)) as Hdiv.
    pose proof (Z.mod_pos_bound m' 100 ltac:(lia)) as Hmod.
    unfold Z.modulo in Hmod.
    destruct (Z.div_eucl m' 100) as [q' r']. injection Ed as <- <- _.
    split; [|lia]. lia. }
  pose proof (binary_round_aux_below (xorb (b <? 0) (100 <? 0)) q e l Hq) as Hne.
  destruct (binary_round_aux _ _ _ q e l) as [s|s| |s m ex]; try by eexists.
  by destruct (Hne s).
Qed.

End FloatFacts.

(** ** Inventory: the paths of [retrieve_product] *)

Section InventoryFacts.
Import Inventory.

Implicit Types (inv : Inventory.t) (prod : Product.t) (id amount_ct : Z).

Lemma retrieve_unknown inv id amount_ct :
  _products inv !! id = None →
  retrieve_product id amount_ct inv = (Ok (None, msg_unknown id), inv).
Proof. intros H. unfold retrieve_product. run_prog. rewrite H. reflexivity. Qed.

Lemma retrieve_sold_out inv id amount_ct prod :
  _products inv !! id = Some prod → Product.stock prod = 0 →
  retrieve_product id amount_ct inv = (Ok (None, msg_sold_out id prod), inv).
Proof.
  intros H H0. unfold retrieve_product. run_prog. rewrite H, H0. reflexivity.
Qed.

Lemma retrieve_raise inv id amount_ct prod e :
  _products inv !! id = Some prod → Product.stock prod ≠ 0 →
  price_ct prod = Raise e →
  retrieve_product id amount_ct inv = (Raise e, inv).
Proof.
  intros H H0 Hp. unfold retrieve_product. run_prog. rewrite H.
  destruct (Z.eqb_spec (Product.stock prod) 0) as [|_]; [contradiction|].
  rewrite Hp. reflexivity.
Qed.

Lemma retrieve_funds inv id amount_ct prod c :
  _products inv !! id = Some prod → Product.stock prod ≠ 0 →
  price_ct prod = Ok c → amount_ct < c →
  retrieve_product id amount_ct inv = (Ok (None, msg_funds), inv).
Proof.
  intros H H0 Hp Hlt. unfold retrieve_product. run_prog. rewrite H.
  destruct (Z.eqb_spec (Product.stock prod) 0) as [|_]; [contradiction|].
  rewrite Hp. destruct (Z.gtb_spec c amount_ct); [reflexivity|lia].
Qed.

Lemma retrieve_success inv id amount_ct prod c :
  _products inv !! id = Some prod → Product.stock prod ≠ 0 →
  price_ct prod = Ok c → c ≤ amount_ct →
  retrieve_product id amount_ct inv
  = (Ok (Some c, msg_retrieved (Product.take_one prod)),
     set_product id (Product.take_one prod) inv).
Proof.
  intros H H0 Hp Hle. unfold retrieve_product. run_prog. rewrite H.
  destruct (Z.eqb_spec (Product.stock prod) 0) as [|_]; [contradiction|].
  rewrite Hp. destruct (Z.gtb_spec c amount_ct); [lia|reflexivity].
Qed.

Lemma retrieve_product_path inv id amount_ct :
  retrieve_path inv id amount_ct
    (retrieve_product id amount_ct inv).1 (retrieve_product id amount_ct inv).2.
Proof.
  destruct (_products inv !! id) as [prod|] eqn:H.
  - destruct (Z.eq_dec (Product.stock prod) 0) as [H0|H0].
    + rewrite (retrieve_sold_out _ _ _ _ H H0). by eapply path_sold_out.
    + destruct (price_ct prod) as [c|e] eqn:Hp.
      * destruct (Z.lt_ge_cases amount_ct c) as [Hlt|Hle].
        -- rewrite (retrieve_funds _ _ _ _ _ H H0 Hp Hlt). by eapply path_funds.
        -- rewrite (retrieve_success _ _ _ _ _ H H0 Hp Hle). by eapply path_success.
      * rewrite (retrieve_raise _ _ _ _ _ H H0 Hp). by eapply path_raise.
  - rewrite (retrieve_unknown _ _ _ H). by apply path_unknown.
Qed.

Lemma retrieve_product_inv inv id amount_ct r inv' :
  retrieve_product id amount_ct inv = (r, inv') →
  retrieve_path inv id amount_ct r inv'.
Proof.
  intros H. pose proof (retrieve_product_path inv id amount_ct) as P.
  rewrite H in P. exact P.
Qed.

(** The three failure messages are pairwise different. *)
Lemma msg_unknown_sold_out id id' prod : msg_unknown id ≠ msg_sold_out id' prod.
Proof.
  unfold msg_unknown, msg_sold_out, msg_error. cbn.
  intros H. injection H as H. discriminate.
Qed.

Lemma msg_unknown_funds id : msg_unknown id ≠ msg_funds.
Proof.
  unfold msg_unknown, msg_funds, msg_error. cbn.
  intros H. injection H as H. discriminate.
Qed.

Lemma msg_sold_out_funds id prod : msg_sold_out id prod ≠ msg_funds.
Proof.
  unfold msg_sold_out, msg_funds, msg_error. cbn.
  intros H. injection H as H. discriminate.
Qed.

End InventoryFacts.

(** ** Inventory: stock bookkeeping *)

Section StockFacts.
Import Inventory.

Lemma retrieve_some_inv inv id amount_ct paid msg inv' :
  retrieve_product id amount_ct inv = (Ok (Some paid, msg), inv') →
  ∃ prod, _products inv !! id = Some prod ∧ Product.stock prod ≠ 0
          ∧ price_ct prod = Ok paid ∧ paid ≤ amount_ct
          ∧ msg = msg_retrieved (Product.take_one prod)
          ∧ inv' = set_product id (Product.take_one prod) inv.
Proof.
  intros H. apply retrieve_product_inv in H.
  inversion H; subst; eauto 10.
Qed.

Lemma retrieve_none_inv inv id amount_ct msg inv' :
  retrieve_product id amount_ct inv = (Ok (None, msg), inv') → inv' = inv.
Proof. intros H. apply retrieve_product_inv in H. by inversion H. Qed.

Lemma retrieve_raise_inv inv id amount_ct e inv' :
  retrieve_product id amount_ct inv = (Raise e, inv') → inv' = inv.
Proof. intros H. apply retrieve_product_inv in H. by inversion H. Qed.

Lemma lookup_set_product_eq inv id prod :
  _products (set_product id prod inv) !! id = Some prod.
Proof. apply lookup_insert_eq. Qed.

Lemma lookup_set_product_ne inv id id' prod :
  id ≠ id' → _products (set_product id prod inv) !! id' = _products inv !! id'.
Proof. intros H. simpl. by rewrite lookup_insert_ne. Qed.

Lemma retrievals_stock id n : ∀ inv inv' prod,
  _products inv !! id = Some prod → retrievals id n inv inv' →
  ∃ prod', _products inv' !! id = Some prod'
           ∧ Product.stock prod' = Product.stock prod - Z.of_nat n
           ∧ same_but_stock prod prod'.
Proof.
  induction n as [|n IH]; intros inv inv' prod Hl Hr; inversion Hr; subst.
  - exists prod. unfold same_but_stock. split_and!; auto. lia.
  - match goal with H : retrieve_product _ _ _ = _ |- _ =>
      apply retrieve_some_inv in H as (p & Hp & _ & _ & _ & _ & ->) end.
    assert (p = prod) as -> by congruence.
    match goal with H : retrievals _ _ _ _ |- _ =>
      destruct (IH _ _ _ (lookup_set_product_eq inv id _) H)
        as (prod' & Hl' & Hs & Hi & Hn & Hpr) end.
    exists prod'. unfold same_but_stock. simpl in *. split_and!; auto. lia.
Qed.

Lemma retrievals_exist id c n : ∀ inv prod,
  _products inv !! id = Some prod → Product.stock prod = Z.of_nat n →
  price_ct prod = Ok c →
  ∃ inv', retrievals id n inv inv'.
Proof.
  induction n as [|n IH]; intros inv prod Hl Hs Hp.
  - exists inv. constructor.
  - assert (Product.stock prod ≠ 0) as H0 by lia.
    pose proof (retrieve_success inv id c prod c Hl H0 Hp (Z.le_refl c)) as Hr.
    destruct (IH (set_product id (Product.take_one prod) inv) (Product.take_one prod))
      as [inv' Hrs].
    + apply lookup_set_product_eq.
    + simpl. lia.
    + exact Hp.
    + exists inv'. by eapply retrievals_S.
Qed.

End StockFacts.

(** ** Inventory: the claims *)

Section InventoryClaims.
Import Inventory.

(** C2. [retrieve_product] checks its failure conditions in a fixed order:
    an id that is not in the mapping gives the unknown-product failure
    whatever the amount; otherwise a stock of exactly 0 gives the sold-out
    failure whatever the amount and the price; otherwise an amount below
    the price in cents gives the insufficient-funds failure.  The three
    failures are told apart by their messages, and none changes the
    inventory. *)
Theorem retrieve_product_precedence (inv : Inventory.t) (id amount_ct : Z) :
  (_products inv !! id = None →
   retrieve_product id amount_ct inv = (Ok (None, msg_unknown id), inv))
  ∧ (∀ prod, _products inv !! id = Some prod → Product.stock prod = 0 →
       retrieve_product id amount_ct inv = (Ok (None, msg_sold_out id prod), inv)
       ∧ msg_sold_out id prod ≠ msg_funds
       ∧ msg_sold_out id prod ≠ msg_unknown id)
  ∧ (∀ prod c, _products inv !! id = Some prod → Product.stock prod ≠ 0 →
       price_ct prod = Ok c → amount_ct < c →
       retrieve_product id amount_ct inv = (Ok (None, msg_funds), inv)
       ∧ msg_funds ≠ msg_unknown id).
Proof.
  split_and!.
  - apply retrieve_unknown.
  - intros prod Hl H0. split_and!.
    + by apply retrieve_sold_out.
    + apply msg_sold_out_funds.
    + intros E. symmetry in E. by apply msg_unknown_sold_out in E.
  - intros prod c Hl H0 Hp Hlt. split.
    + by eapply retrieve_funds.
    + intros E. symmetry in E. by apply msg_unknown_funds in E.
Qed.

(** C6. For a product in the inventory with positive stock,
    [retrieve_product] fails with insufficient funds exactly when the
    amount offered is strictly below the price in cents, [int(price *
    100)]: the binary64 product, truncated.  When the amount is at least
    that many cents the funds check passes and the call succeeds, charging
    them.  For a price that is not negative the truncation is the floor of
    the product.  A price of 1.20 is 120 cents. *)
Theorem retrieve_product_funds_check
  (inv : Inventory.t) (id amount_ct : Z) (prod : Product.t) :
  _products inv !! id = Some prod → 0 < Product.stock prod →
  (retrieve_product id amount_ct inv = (Ok (None, msg_funds), inv)
   ↔ ∃ c, price_ct prod = Ok c ∧ amount_ct < c)
  ∧ (∀ c, price_ct prod = Ok c → c ≤ amount_ct →
     ∃ msg inv', retrieve_product id amount_ct inv = (Ok (Some c, msg), inv'))
  ∧ (Py.ge0 (Product.price prod) = true →
     Py.floor (Py.mul100 (Product.price prod)) = price_ct prod)
  ∧ (Product.price prod = Py.literal 120 2 → price_ct prod = Ok 120).
Proof.
  intros Hl Hs. assert (Product.stock prod ≠ 0) as H0 by lia. split_and!.
  - split.
    + intros Hr. apply retrieve_product_inv in Hr.
      inversion Hr as [| | |p c Hp Hz Hc Hlt|]; subst.
      assert (p = prod) as -> by congruence. eauto.
    + intros (c & Hp & Hlt). by eapply retrieve_funds.
  - intros c Hp Hle. eexists _, _. by eapply retrieve_success.
  - intros Hge. unfold price_ct. symmetry.
    destruct (Product.price prod) as [s|[]| |[] m e]; try discriminate.
    + reflexivity.
    + reflexivity.
    + apply int_of_float_floor, mul100_signed. constructor.
  - intros E. unfold price_ct. rewrite E. reflexivity.
Qed.

(** C8. Every successful [retrieve_product] for a product lowers its stock
    by exactly 1 and the inventory that later calls see has the lower
    stock: after [n] successful retrievals the stock is [n] lower, and once
    it is 0 the next call fails with the sold-out failure whatever the
    amount offered.  A product with stock [n] and a convertible price
    admits [n] successful retrievals. *)
Theorem retrieve_product_decrements
  (inv inv' : Inventory.t) (id : Z) (prod : Product.t) (n : nat) :
  _products inv !! id = Some prod →
  retrievals id n inv inv' →
  ∃ prod', _products inv' !! id = Some prod'
    ∧ Product.stock prod' = Product.stock prod - Z.of_nat n
    ∧ (Product.stock prod' = 0 →
       ∀ amount_ct, retrieve_product id amount_ct inv'
                    = (Ok (None, msg_sold_out id prod'), inv'))
    ∧ (∀ c k, Product.stock prod' = Z.of_nat k → price_ct prod = Ok c →
       ∃ inv'', retrievals id k inv' inv'').
Proof.
  intros Hl Hr.
  destruct (retrievals_stock id n inv inv' prod Hl Hr) as (prod' & Hl' & Hs & _ & _ & Hpr).
  exists prod'. split_and!; auto.
  - intros H0 amount_ct. by apply retrieve_sold_out.
  - intros c k Hk Hp. apply (retrievals_exist id c k inv' prod' Hl' Hk).
    unfold price_ct in *. by rewrite Hpr.
Qed.

(** C10. [retrieve_product] changes at most the stock of the product it
    retrieves.  A call that fails (or raises) leaves the inventory as it
    was.  A successful call for [id] leaves every other id mapped as
    before, and the product at [id] keeps its id, name and price while its
    stock goes down by 1. *)
Theorem retrieve_product_frame
  (inv inv' : Inventory.t) (id amount_ct : Z) (r : outcome (option Z * string)) :
  retrieve_product id amount_ct inv = (r, inv') →
  ((∀ paid msg, r ≠ Ok (Some paid, msg)) → inv' = inv)
  ∧ (∀ paid msg, r = Ok (Some paid, msg) →
     (∀ id', id' ≠ id → _products inv' !! id' = _products inv !! id')
     ∧ ∃ prod prod', _products inv !! id = Some prod
         ∧ _products inv' !! id = Some prod'
         ∧ same_but_stock prod prod'
         ∧ Product.stock prod' = Product.stock prod - 1).
Proof.
  intros H. split.
  - intros Hfail. destruct r as [[[paid|] msg]|e].
    + by destruct (Hfail paid msg).
    + by eapply retrieve_none_inv.
    + by eapply retrieve_raise_inv.
  - intros paid msg ->.
    apply retrieve_some_inv in H as (prod & Hl & _ & _ & _ & _ & ->). split.
    + intros id' Hne. by apply lookup_set_product_ne.
    + exists prod, (Product.take_one prod).
      rewrite lookup_set_product_eq. unfold same_but_stock. simpl.
      split_and!; auto.
Qed.

End InventoryClaims.

(** ** The change algorithm *)

Section CoinFacts.
Import VendingMachineModel.

Implicit Types (coins denoms result l : list Z) (rest c : Z).

Lemma sum_app l1 l2 : sum (l1 ++ l2) = sum l1 + sum l2.
Proof. induction l1 as [|x l1 IH]; simpl; [reflexivity|]. rewrite IH. lia. Qed.

Lemma sum_replicate n c : sum (replicate n c) = Z.of_nat n * c.
Proof. induction n as [|n IH]; simpl; [reflexivity|]. rewrite IH. lia. Qed.

(** The loop of the code computes what the specification describes, and
    raises [OverflowError] when a count does not fit an index. *)
Lemma coin_loop_cases coins : ∀ result rest,
  Forall (λ c, c ≠ 0) coins →
  coin_loop coins result rest
  = if counts_fit coins rest
    then Ok (result ++ (greedy_spec coins rest).1, (greedy_spec coins rest).2)
    else Raise OverflowError.
Proof.
  induction coins as [|c coins IH]; intros result rest Hnz; simpl.
  - by rewrite app_nil_r.
  - inversion Hnz as [|? ? Hc Hnz']; subst.
    destruct (Z.eqb_spec c 0) as [|_]; [contradiction|].
    unfold Py.repeat. destruct (Py.fits_index (rest / c)); simpl; [|reflexivity].
    rewrite (IH _ _ Hnz'), (Z.mod_eq rest c Hc), (Z.mul_comm c).
    destruct (counts_fit coins (rest - rest / c * c)); [|reflexivity].
    destruct (greedy_spec coins (rest - rest / c * c)) as [l leftover].
    simpl. by rewrite <- app_assoc.
Qed.

Lemma coin_loop_greedy coins result rest :
  Forall (λ c, c ≠ 0) coins → counts_fit coins rest = true →
  coin_loop coins result rest
  = Ok (result ++ (greedy_spec coins rest).1, (greedy_spec coins rest).2).
Proof. intros Hnz Hf. by rewrite coin_loop_cases, Hf. Qed.





Lemma greedy_spec_sum denoms : ∀ rest,
  0 ≤ rest → Forall (λ c, 0 < c) denoms →
  sum (greedy_spec denoms rest).1 + (greedy_spec denoms rest).2 = rest.
Proof.
  induction denoms as [|c denoms IH]; intros rest Hr Hpos; simpl; [lia|].
  inversion Hpos as [|? ? Hc Hpos']; subst.
  assert (0 ≤ rest / c) as Hq by (apply Z.div_pos; lia).
  assert (0 ≤ rest - rest / c * c) as Hm.
  { pose proof (Z.mul_div_le rest c Hc). lia. }
  specialize (IH _ Hm Hpos').
  destruct (greedy_spec denoms (rest - rest / c * c)) as [l leftover].
  simpl in *. rewrite sum_app, sum_replicate, Z2Nat.id by lia. lia.
Qed.

Lemma greedy_spec_elem denoms : ∀ rest x,
  x ∈ (greedy_spec denoms rest).1 → x ∈ denoms.
Proof.
  induction denoms as [|c denoms IH]; intros rest x; simpl.
  - intros H. by apply elem_of_nil in H.
  - specialize (IH (rest - rest / c * c) x).
    destruct (greedy_spec denoms (rest - rest / c * c)) as [l leftover]. simpl in *.
    rewrite elem_of_app, elem_of_cons. intros [H|H].
    + left. by apply elem_of_replicate in H as [-> _].
    + right. by apply IH.
Qed.

Lemma greedy_spec_zero denoms : (greedy_spec denoms 0).2 = 0.
Proof.
  induction denoms as [|c denoms IH]; simpl; [reflexivity|].
  change (0 / c) with 0. rewrite Z.mul_0_l. change (0 - 0) with 0.
  by destruct (greedy_spec denoms 0) as [l leftover].
Qed.


#[local] Instance flip_le_trans : Transitive (flip Z.le).
Proof. intros x y z; unfold flip; lia. Qed.

#[local] Instance flip_le_antisymm : AntiSymm (=) (flip Z.le).
Proof. intros x y; unfold flip; lia. Qed.

#[local] Instance flip_le_total : Total (flip Z.le).
Proof. intros x y; unfold flip; lia. Qed.

(** [sorted(coin_set, reverse=True)] is the descending arrangement. *)
Lemma sorted_reverse_unique coin_set denoms :
  denoms ≡ₚ coin_set → Sorted (flip Z.le) denoms → sorted_reverse coin_set = denoms.
Proof.
  intros Hp Hs. apply (Sorted_unique (flip Z.le)).
  - apply Sorted_merge_sort, _.
  - exact Hs.
  - unfold sorted_reverse. by rewrite merge_sort_Permutation.
Qed.

Lemma sorted_reverse_Forall (P : Z → Prop) coin_set :
  Forall P coin_set → Forall P (sorted_reverse coin_set).
Proof.
  intros H. unfold sorted_reverse. by rewrite merge_sort_Permutation.
Qed.

Lemma amount_to_coins_raw amount_ct coin_set :
  Forall (λ c, c ≠ 0) coin_set →
  amount_to_coins amount_ct coin_set false
  = if counts_fit (sorted_reverse coin_set) amount_ct
    then Ok (if (greedy_spec (sorted_reverse coin_set) amount_ct).2 =? 0
             then Some (Coins (greedy_spec (sorted_reverse coin_set) amount_ct).1)
             else None)
    else Raise OverflowError.
Proof.
  intros Hnz. unfold amount_to_coins.
  rewrite coin_loop_cases by by apply sorted_reverse_Forall.
  destruct (counts_fit _ _); [|reflexivity].
  simpl. by destruct (_ =? 0).
Qed.

End CoinFacts.

Section CoinClaims.
Import VendingMachineModel.



End CoinClaims.

(** ** The machine: method equations *)

Section MachineFacts.
Import VendingMachineModel.

Implicit Types (m : VendingMachineModel.t).

Lemma set_inventory_id m : set_inventory (_inventory m) m = m.
Proof. by destruct m. Qed.

Lemma insert_money_eq amount_eur m :
  insert_money amount_eur m
  = match Py.int (Py.max0 (Py.mul100 amount_eur)) with
    | Ok cents => (Py.truediv (_balance m + cents) 100,
                   set_balance (_balance m + cents) m)
    | Raise e => (Raise e, m)
    end.
Proof.
  unfold insert_money, balance. run_prog.
  by destruct (Py.int (Py.max0 (Py.mul100 amount_eur))).
Qed.

Lemma return_coins_eq prettify m :
  return_coins prettify m
  = match amount_to_coins (_balance m) (_coins m) prettify with
    | Ok result => (Ok result, set_balance 0 m)
    | Raise e => (Raise e, m)
    end.
Proof.
  unfold return_coins, _amount_to_coins, balance. run_prog.
  by destruct (amount_to_coins (_balance m) (_coins m) prettify).
Qed.

Lemma buy_product_eq id m :
  buy_product id m
  = match Inventory.retrieve_product id (_balance m) (_inventory m) with
    | (Ok (Some paid, msg), inv') =>
        (Ok (Some paid, msg), set_balance (_balance m - paid) (set_inventory inv' m))
    | (Ok (None, msg), inv') => (Ok (None, msg), set_inventory inv' m)
    | (Raise e, inv') => (Raise e, set_inventory inv' m)
    end.
Proof.
  unfold buy_product, balance. run_prog.
  by destruct (Inventory.retrieve_product id (_balance m) (_inventory m))
    as [[[[paid|] msg]|e] inv'].
Qed.

(** The cents credited by an insertion are never negative. *)
Lemma int_max0_nonneg x cents : Py.int (Py.max0 x) = Ok cents → 0 ≤ cents.
Proof.
  unfold Py.max0. destruct (Py.gt0 x) eqn:G; simpl.
  - apply gt0_signed_true in G.
    destruct G as [| |mx e]; simpl; intros E; inversion E; subst.
    + lia.
    + apply Z.shiftl_nonneg. lia.
  - intros [= <-]. lia.
Qed.

Lemma default_coins_list : sorted_reverse (elements DEFAULT_COINS) = [100; 50; 20; 10; 5].
Proof. vm_compute. reflexivity. Qed.






Lemma init_default_coins initial_balance inventory :
  default_coins (__init__ initial_balance inventory).
Proof. reflexivity. Qed.

Lemma after_coins o m : _coins (after o m) = _coins m.
Proof.
  destruct o as [amount_eur|id|prettify]; simpl.
  - rewrite insert_money_eq. by destruct (Py.int _).
  - rewrite buy_product_eq.
    by destruct (Inventory.retrieve_product _ _ _) as [[[[paid|] msg]|e] inv'].
  - rewrite return_coins_eq. by destruct (amount_to_coins _ _ _).
Qed.

Lemma after_balance_nonneg o m : 0 ≤ _balance m → 0 ≤ _balance (after o m).
Proof.
  intros Hb. destruct o as [amount_eur|id|prettify]; simpl.
  - rewrite insert_money_eq.
    destruct (Py.int _) as [cents|e] eqn:E; simpl; [|done].
    apply int_max0_nonneg in E. lia.
  - rewrite buy_product_eq.
    destruct (Inventory.retrieve_product _ _ _) as [[[[paid|] msg]|e] inv'] eqn:E;
      simpl; try done.
    apply retrieve_some_inv in E as (prod & _ & _ & _ & Hle & _). lia.
  - rewrite return_coins_eq. by destruct (amount_to_coins _ _ _).
Qed.

End MachineFacts.

(** ** The machine: the claims *)

Section MachineClaims.
Import VendingMachineModel.

(** The code takes the maximum after the multiplication, the specification
    before it; both give the same cents or raise the same exception. *)
Lemma int_max0_mul100_floor amount_eur :
  Py.int (Py.max0 (Py.mul100 amount_eur)) = cents_spec amount_eur.
Proof.
  unfold cents_spec. unfold Py.max0 at 2.
  destruct (Py.gt0 amount_eur) eqn:G; simpl.
  - apply gt0_signed_true, mul100_signed in G.
    by rewrite int_max0_signed, int_of_float_floor.
  - unfold Py.max0. by rewrite (gt0_mul100_false _ G).
Qed.

(** The formula raises only when the product overflows. *)
Lemma cents_spec_raise amount_eur e :
  cents_spec amount_eur = Raise e →
  e = OverflowError ∧ Py.mul100 amount_eur = S754_infinity false.
Proof.
  unfold cents_spec, Py.max0.
  destruct (Py.gt0 amount_eur) eqn:G; simpl; [|discriminate].
  apply gt0_signed_true, mul100_signed in G.
  destruct G as [| |mx ex]; simpl; intros E; inversion E; done.
Qed.


(** C4. [buy_product] calls [retrieve_product] with the current balance.
    When that returns a price, the balance goes down by exactly the price
    and the pair (price, message) is returned; when it returns [None],
    the machine is left as it was, balance included, and the pair
    ([None], message) is returned as the inventory gave it. *)
Theorem buy_product_delegates (m : VendingMachineModel.t) (id : Z) :
  (∀ paid msg inv',
     Inventory.retrieve_product id (_balance m) (_inventory m)
     = (Ok (Some paid, msg), inv') →
     buy_product id m
     = (Ok (Some paid, msg), set_balance (_balance m - paid) (set_inventory inv' m))
     ∧ _balance (buy_product id m).2 = _balance m - paid)
  ∧ (∀ msg inv',
     Inventory.retrieve_product id (_balance m) (_inventory m)
     = (Ok (None, msg), inv') →
     buy_product id m = (Ok (None, msg), m)
     ∧ _balance (buy_product id m).2 = _balance m).
Proof.
  split.
  - intros paid msg inv' H. rewrite buy_product_eq, H. done.
  - intros msg inv' H. rewrite buy_product_eq, H.
    apply retrieve_none_inv in H as ->. by rewrite set_inventory_id.
Qed.

(** C5. The balance is an int and is never negative: it is 0 after
    [__init__] with the default initial balance, every operation keeps it
    at or above 0, so it is at or above 0 after any sequence of
    operations.  An insertion credits cents that are not negative, a
    purchase deducts a price that is at most the balance, and returning
    coins leaves 0. *)
Theorem balance_never_negative (inventory : option Inventory.t) (os : list operation) :
  _balance (__init__ 0 inventory) = 0
  ∧ 0 ≤ _balance (after_all os (__init__ 0 inventory))
  ∧ (∀ m o, 0 ≤ _balance m → 0 ≤ _balance (after o m))
  ∧ (∀ m amount_eur,
       (∃ cents, 0 ≤ cents
          ∧ _balance (insert_money amount_eur m).2 = _balance m + cents))
  ∧ (∀ m id paid msg m', buy_product id m = (Ok (Some paid, msg), m') →
       paid ≤ _balance m ∧ _balance m' = _balance m - paid)
  ∧ (∀ m prettify result m', return_coins prettify m = (Ok result, m') →
       _balance m' = 0).
Proof.
  split_and!.
  - reflexivity.
  - assert (∀ m, 0 ≤ _balance m → 0 ≤ _balance (after_all os m)) as H.
    { induction os as [|o os IH]; intros m Hm; simpl; [done|].
      apply IH, after_balance_nonneg, Hm. }
    apply H. simpl. lia.
  - intros m o. apply after_balance_nonneg.
  - intros m amount_eur. rewrite insert_money_eq.
    destruct (Py.int _) as [cents|e] eqn:E; simpl.
    + exists cents. split; [by eapply int_max0_nonneg|done].
    + exists 0. split; lia.
  - intros m id paid msg m'. rewrite buy_product_eq.
    destruct (Inventory.retrieve_product _ _ _) as [[[[paid'|] msg']|e] inv'] eqn:E;
      intros [= <- <- <-].
    apply retrieve_some_inv in E as (prod & _ & _ & _ & Hle & _). done.
  - intros m prettify result m'. rewrite return_coins_eq.
    destruct (amount_to_coins _ _ _); intros [= <- <-]. done.
Qed.

(** C7, as amended. [insert_money] credits [floor(max(0, amount) * 100)]
    cents, the product taken in binary64: the code computes exactly this
    formula, raising where it raises.  Where the formula has a value the
    balance grows by it and the method gives back the new balance divided
    by 100; where it has none, which is only when the product overflows to
    infinity, the method raises [OverflowError] and the machine is as
    before.  The division by 100 returns a float whenever the new balance
    is below [2^1023] in absolute value.  An amount that is not above zero
    (negative, zero, NaN, so -5) credits 0 cents and leaves the machine as
    it was; 0.2498 credits exactly 24 cents. *)
Theorem insert_money_adds_floor_cents
  (m : VendingMachineModel.t) (amount_eur : Py.float) :
  Py.int (Py.max0 (Py.mul100 amount_eur)) = cents_spec amount_eur
  ∧ (∀ cents, cents_spec amount_eur = Ok cents →
       insert_money amount_eur m
       = (Py.truediv (_balance m + cents) 100, set_balance (_balance m + cents) m)
       ∧ 0 ≤ cents)
  ∧ (∀ cents, cents_spec amount_eur = Ok cents →
       Z.abs (_balance m + cents) < 2 ^ 1023 →
       ∃ f, insert_money amount_eur m = (Ok f, set_balance (_balance m + cents) m))
  ∧ (∀ e, cents_spec amount_eur = Raise e →
       insert_money amount_eur m = (Raise e, m)
       ∧ e = OverflowError ∧ Py.mul100 amount_eur = S754_infinity false)
  ∧ (Py.gt0 amount_eur = false →
       cents_spec amount_eur = Ok 0 ∧ (insert_money amount_eur m).2 = m)
  ∧ (amount_eur = Py.literal (-5) 0 → (insert_money amount_eur m).2 = m)
  ∧ (amount_eur = Py.literal 2498 4 →
       _balance (insert_money amount_eur m).2 = _balance m + 24).
Proof.
  pose proof (int_max0_mul100_floor amount_eur) as Hc.
  assert (Py.gt0 amount_eur = false →
          cents_spec amount_eur = Ok 0 ∧ (insert_money amount_eur m).2 = m) as Hneg.
  { intros G. assert (cents_spec amount_eur = Ok 0) as H0.
    { unfold cents_spec, Py.max0. by rewrite G. }
    split; [exact H0|].
    rewrite insert_money_eq, Hc, H0. simpl. rewrite Z.add_0_r. by destruct m. }
  split_and!.
  - exact Hc.
  - intros cents H. rewrite insert_money_eq, Hc, H. split; [done|].
    rewrite <- Hc in H. by eapply int_max0_nonneg.
  - intros cents H Hb. rewrite insert_money_eq, Hc, H.
    destruct (truediv_100_returns _ Hb) as [f ->]. by exists f.
  - intros e H. rewrite insert_money_eq, Hc, H. split; [done|].
    by apply cents_spec_raise.
  - exact Hneg.
  - intros ->. by apply Hneg.
  - intros ->. rewrite insert_money_eq. reflexivity.
Qed.

End MachineClaims.

(** ** The claims at concrete inputs *)

Section Witnesses.
Import VendingMachineModel.




Lemma retrieve_product_precedence_witness :
  Inventory.retrieve_product 4 400 test_inventory
  = (Ok (None, Inventory.msg_unknown 4), test_inventory)
  ∧ Inventory.retrieve_product 3 0 test_inventory
    = (Ok (None, Inventory.msg_sold_out 3 (Product.mk 3 "Soy Milk" (Py.literal 100 2) 0)),
       test_inventory)
  ∧ Inventory.retrieve_product 1 400 test_inventory
    = (Ok (None, Inventory.msg_funds), test_inventory).
Proof.
  split_and!.
  - apply (retrieve_product_precedence test_inventory 4 400). reflexivity.
  - apply (retrieve_product_precedence test_inventory 3 0); reflexivity.
  - destruct (retrieve_product_precedence test_inventory 1 400) as (_ & _ & H).
    apply (H (Product.mk 1 "Pinot Noir" (Py.literal 450 2) 1) 450).
    + reflexivity.
    + discriminate.
    + reflexivity.
    + lia.
Defined.

Lemma retrieve_product_funds_check_witness :
  (Inventory.retrieve_product 1 449 test_inventory
   = (Ok (None, Inventory.msg_funds), test_inventory)
   ↔ ∃ c, Inventory.price_ct (Product.mk 1 "Pinot Noir" (Py.literal 450 2) 1) = Ok c
          ∧ 449 < c)
  ∧ ∃ msg inv', Inventory.retrieve_product 1 450 test_inventory
                = (Ok (Some 450, msg), inv').
Proof.
  pose (prod := Product.mk 1 "Pinot Noir" (Py.literal 450 2) 1).
  destruct (retrieve_product_funds_check test_inventory 1 449 prod)
    as (H1 & _); [reflexivity|simpl; lia|].
  destruct (retrieve_product_funds_check test_inventory 1 450 prod)
    as (_ & H2 & _); [reflexivity|simpl; lia|].
  split; [exact H1|]. apply H2; [reflexivity|lia].
Defined.

Lemma retrieve_product_decrements_witness :
  ∃ inv' prod',
    retrievals 2 2 test_inventory inv'
    ∧ Inventory._products inv' !! 2 = Some prod'
    ∧ Product.stock prod' = 0
    ∧ ∀ amount_ct, Inventory.retrieve_product 2 amount_ct inv'
                   = (Ok (None, Inventory.msg_sold_out 2 prod'), inv').
Proof.
  pose (prod := Product.mk 2 "Red Bull + Vodka" (Py.literal 350 2) 2).
  destruct (retrievals_exist 2 350 2 test_inventory prod) as [inv' Hr];
    [reflexivity..|].
  destruct (retrieve_product_decrements test_inventory inv' 2 prod 2)
    as (prod' & Hl & Hs & H0 & _); [reflexivity|exact Hr|].
  exists inv', prod'. split_and!; [exact Hr|exact Hl|exact Hs|].
  apply H0. exact Hs.
Defined.

Lemma retrieve_product_frame_witness :
  ∃ inv', (∀ id', id' ≠ 1 →
             Inventory._products inv' !! id' = Inventory._products test_inventory !! id')
          ∧ ∃ prod prod', Inventory._products test_inventory !! 1 = Some prod
              ∧ Inventory._products inv' !! 1 = Some prod'
              ∧ same_but_stock prod prod'
              ∧ Product.stock prod' = Product.stock prod - 1.
Proof.
  pose (prod := Product.mk 1 "Pinot Noir" (Py.literal 450 2) 1).
  assert (Inventory.price_ct prod = Ok 450) as Hp by reflexivity.
  assert (Product.stock prod ≠ 0) as H0 by discriminate.
  pose proof (retrieve_success test_inventory 1 500 prod 450 eq_refl H0 Hp
                ltac:(lia)) as H.
  exists (Inventory.set_product 1 (Product.take_one prod) test_inventory).
  destruct (retrieve_product_frame _ _ _ _ _ H) as [_ H2].
  exact (H2 _ _ eq_refl).
Defined.



Lemma buy_product_delegates_witness :
  _balance (buy_product 1 (test_machine 475)).2 = 475 - 450
  ∧ buy_product 3 (test_machine 475)
    = (Ok (None, Inventory.msg_sold_out 3 (Product.mk 3 "Soy Milk" (Py.literal 100 2) 0)),
       test_machine 475).
Proof.
  split.
  - destruct (buy_product_delegates (test_machine 475) 1) as [H _].
    pose (prod := Product.mk 1 "Pinot Noir" (Py.literal 450 2) 1).
    assert (Product.stock prod ≠ 0) as H0 by discriminate.
    pose proof (retrieve_success test_inventory 1 475 prod 450 eq_refl H0 eq_refl
                  ltac:(lia)) as E.
    exact (proj2 (H _ _ _ E)).
  - destruct (buy_product_delegates (test_machine 475) 3) as [_ H].
    pose (prod := Product.mk 3 "Soy Milk" (Py.literal 100 2) 0).
    pose proof (retrieve_sold_out test_inventory 3 475 prod eq_refl eq_refl) as E.
    exact (proj1 (H _ _ E)).
Defined.

Lemma balance_never_negative_witness :
  0 ≤ _balance (after (BuyProduct 1) (test_machine 475)).
Proof.
  destruct (balance_never_negative None []) as (_ & _ & H & _).
  apply H. simpl. lia.
Defined.

Lemma insert_money_adds_floor_cents_witness :
  insert_money (Py.literal 2498 4) (test_machine 675)
  = (Py.truediv (675 + 24) 100, test_machine (675 + 24))
  ∧ (insert_money (Py.literal (-5) 0) (test_machine 675)).2 = test_machine 675.
Proof.
  split.
  - destruct (insert_money_adds_floor_cents (test_machine 675) (Py.literal 2498 4))
      as (_ & H & _).
    apply (H 24). reflexivity.
  - destruct (insert_money_adds_floor_cents (test_machine 675) (Py.literal (-5) 0))
      as (_ & _ & _ & _ & H & _).
    apply H. reflexivity.
Defined.

(** C7 as stated fails: the amount [2^1020] is a finite binary64 value, yet
    [insert_money] raises [OverflowError], credits nothing and returns
    no balance. *)
Lemma insert_money_overflow_counterexample :
  valid_binary Py.prec Py.emax huge_amount = true
  ∧ insert_money huge_amount (test_machine 0) = (Raise OverflowError, test_machine 0)
  ∧ ¬ ∃ f m', insert_money huge_amount (test_machine 0) = (Ok f, m').
Proof.
  assert (insert_money huge_amount (test_machine 0)
          = (Raise OverflowError, test_machine 0)) as H.
  { rewrite insert_money_eq. reflexivity. }
  split_and!; [reflexivity|exact H|].
  intros (f & m' & E). rewrite H in E. discriminate.
Qed.

End Witnesses.

(** ** The assertions of [test_vema.py] *)

Example literal_1_20 : Py.literal 120 2 = S754_finite false 5404319552844595 (-52).
Proof. vm_compute. reflexivity. Qed.

Example mul100_1_20 :
  Py.int_of_float (Py.mul100 (Py.literal 120 2)) = Ok 120.
Proof. vm_compute. reflexivity. Qed.

(** The product is taken in binary64 before it is truncated. *)
Example mul100_1_15 : Py.int_of_float (Py.mul100 (Py.literal 115 2)) = Ok 114.
Proof. vm_compute. reflexivity. Qed.

Example mul100_0_29 : Py.int (Py.max0 (Py.mul100 (Py.literal 29 2))) = Ok 28.
Proof. vm_compute. reflexivity. Qed.

Example str_int_examples : map Py.str_int [0; 7; -5; 120] = ["0"; "7"; "-5"; "120"].
Proof. vm_compute. reflexivity. Qed.

Example truediv_699 : Py.truediv 699 100 = Ok (Py.literal 699 2).
Proof. vm_compute. reflexivity. Qed.

Example format_2f_examples :
  map Py.format_2f
    [Py.literal 125 3; Py.literal 375 3; Py.literal 1005 3; Py.literal (-1) 3;
     Py.literal 2675 3; Py.literal 45 1; Py.literal 95 2]
  = ["0.12"; "0.38"; "1.00"; "-0.00"; "2.67"; "4.50"; "0.95"].
Proof. vm_compute. reflexivity. Qed.

Example test_amount_to_coins :
  map (λ a, VendingMachineModel.amount_to_coins a (elements DEFAULT_COINS) false)
    [5; 15; 20; 35; 45; 85; 90; 100; 140; 0; 2]
  = [Ok (Some (Coins [5])); Ok (Some (Coins [10; 5])); Ok (Some (Coins [20]));
     Ok (Some (Coins [20; 10; 5])); Ok (Some (Coins [20; 20; 5]));
     Ok (Some (Coins [50; 20; 10; 5])); Ok (Some (Coins [50; 20; 20]));
     Ok (Some (Coins [100])); Ok (Some (Coins [100; 20; 20]));
     Ok (Some (Coins [])); Ok None].
Proof. vm_compute. reflexivity. Qed.

Example test_amount_to_coins_pretty :
  VendingMachineModel.amount_to_coins 45 (elements DEFAULT_COINS) true
  = Ok (Some (PrettyCoins ["20ct"; "20ct"; "5ct"])).
Proof. vm_compute. reflexivity. Qed.

Example test_inv_retrieve_product :
  (Inventory.retrieve_product 1 400 test_inventory).1 = Ok (None, Inventory.msg_funds)
  ∧ (Inventory.retrieve_product 1 (-200) test_inventory).1
    = Ok (None, msg_error "Insufficient funds.")
  ∧ (Inventory.retrieve_product 4 400 test_inventory).1
    = Ok (None, msg_error "No product with id 4.")
  ∧ (Inventory.retrieve_product 3 400 test_inventory).1
    = Ok (None, msg_error "Product 3 (Soy Milk) is sold out.")
  ∧ (Inventory.retrieve_product 1 500 test_inventory).1
    = Ok (Some 450, "You retrieved 1 Pinot Noir for the price of €4.50.")
  ∧ (_ ← Inventory.retrieve_product 1 500;
     Inventory.retrieve_product 1 500) test_inventory
    = (Ok (None, msg_error "Product 1 (Pinot Noir) is sold out."),
       (Inventory.retrieve_product 1 500 test_inventory).2).
Proof. vm_compute. repeat split. Qed.

Example test_vmm_insert_money :
  ((_ ← VendingMachineModel.insert_money (Py.literal 475 2);
    _ ← VendingMachineModel.insert_money (Py.literal 2 0);
    _ ← VendingMachineModel.insert_money (Py.literal 0 0);
    _ ← VendingMachineModel.insert_money (Py.literal (-2) 0);
    VendingMachineModel.insert_money (Py.literal 2498 4)) (test_machine 0))
  = (Ok (Py.literal 699 2), test_machine 699).
Proof. vm_compute. reflexivity. Qed.

Example test_vmm_buy_product :
  ((r1 ← VendingMachineModel.buy_product 1;
    _ ← VendingMachineModel.insert_money (Py.literal 475 2);
    r2 ← VendingMachineModel.buy_product 1;
    r3 ← VendingMachineModel.return_coins true;
    _ ← VendingMachineModel.insert_money (Py.literal 350 2);
    r4 ← VendingMachineModel.buy_product 2;
    mret (r1.1, r2.1, r3, r4.1)) (test_machine 0)).1
  = Ok (None, Some 450, Some (PrettyCoins ["20ct"; "5ct"]), Some 350).
Proof. vm_compute. reflexivity. Qed.

Example test_vmm_return_coins :
  (_ ← VendingMachineModel.insert_money (Py.literal 475 2);
   VendingMachineModel.return_coins false) (test_machine 0)
  = (Ok (Some (Coins [100; 100; 100; 100; 50; 20; 5])), test_machine 0).
Proof. vm_compute. reflexivity. Qed.

(** * Further properties of the code *)

(** ** Inventory: construction and bookkeeping *)

Section InventoryExtras.
Import Inventory.

Lemma foldl_insert_lookup (pl : list Product.t) : ∀ (d : gmap Z Product.t) k,
  foldl (λ d p, <[Product.id p := p]> d) d pl !! k
  = match last (filter (λ p, Product.id p = k) pl) with
    | Some p => Some p
    | None => d !! k
    end.
Proof.
  induction pl as [|p pl IH]; intros d k; simpl; [reflexivity|].
  rewrite IH, filter_cons.
  destruct (decide (Product.id p = k)) as [<-|Hne].
  - rewrite last_cons, lookup_insert_eq.
    by destruct (last (filter _ pl)).
  - rewrite lookup_insert_ne by done. reflexivity.
Qed.

(** X1. [Inventory(product_list)] maps an id to the last entry of the list
    that carries it, and to nothing when no entry does. *)
Theorem init_lookup_last (pl : list Product.t) (k : Z) :
  _products (__init__ (Some pl)) !! k = last (filter (λ p, Product.id p = k) pl).
Proof.
  unfold __init__. simpl. rewrite foldl_insert_lookup, lookup_empty.
  by destruct (last _).
Qed.

Lemma init_well_keyed product_list : well_keyed (__init__ product_list).
Proof.
  intros k p. unfold __init__. simpl. rewrite foldl_insert_lookup, lookup_empty.
  destruct (last _) as [q|] eqn:E; [|discriminate].
  intros [= ->]. apply last_Some_elem_of, list_elem_of_filter in E. tauto.
Qed.

(** A call leaves the inventory as it was or takes one unit of the
    product it was asked for. *)
Lemma retrieve_product_state inv id amount_ct :
  (retrieve_product id amount_ct inv).2 = inv
  ∨ ∃ prod, _products inv !! id = Some prod ∧ Product.stock prod ≠ 0
      ∧ (retrieve_product id amount_ct inv).2
        = set_product id (Product.take_one prod) inv.
Proof.
  destruct (retrieve_product id amount_ct inv) as [r inv'] eqn:E.
  apply retrieve_product_inv in E. destruct E; simpl; eauto.
Qed.

Lemma retrieve_product_well_keyed inv id amount_ct :
  well_keyed inv → well_keyed (retrieve_product id amount_ct inv).2.
Proof.
  intros Hk.
  destruct (retrieve_product_state inv id amount_ct) as [->|(prod & Hl & _ & ->)];
    [done|].
  intros k p. destruct (decide (id = k)) as [<-|Hne].
  - rewrite lookup_set_product_eq. intros [= <-]. simpl. by apply Hk.
  - rewrite lookup_set_product_ne by done. apply Hk.
Qed.

(** X2. Every product sits under its own id after construction and after
    any series of [retrieve_product] calls. *)
Theorem inventory_stays_well_keyed
  (product_list : option (list Product.t)) (calls : list (Z * Z)) :
  well_keyed (retrieve_all calls (__init__ product_list)).
Proof.
  unfold retrieve_all.
  generalize (init_well_keyed product_list).
  generalize (__init__ product_list).
  induction calls as [|call calls IH]; intros inv Hk; simpl; [done|].
  by apply IH, retrieve_product_well_keyed.
Qed.

(** X3. [retrieve_product] never adds or removes a product: the ids of the
    inventory are the same after every call, whatever it returns. *)
Theorem retrieve_product_keeps_ids (inv : Inventory.t) (id amount_ct : Z) :
  dom (_products (retrieve_product id amount_ct inv).2) = dom (_products inv).
Proof.
  destruct (retrieve_product_state inv id amount_ct) as [->|(prod & Hl & _ & ->)];
    [done|].
  simpl. rewrite dom_insert_L.
  apply subseteq_union_1_L, singleton_subseteq_l, elem_of_dom. eauto.
Qed.

Lemma init_stocked pl :
  Forall (λ p, 0 ≤ Product.stock p) pl → stocked (__init__ (Some pl)).
Proof.
  intros Hall k p. unfold __init__. simpl.
  rewrite foldl_insert_lookup, lookup_empty.
  destruct (last _) as [q|] eqn:E; [|discriminate].
  intros [= ->]. apply last_Some_elem_of, list_elem_of_filter in E as [_ E].
  rewrite Forall_forall in Hall. by apply Hall.
Qed.

(** X4. A stock that is not negative never becomes negative: the sold-out
    check comes before the decrement. *)
Theorem retrieve_product_keeps_stock_nonneg (inv : Inventory.t) (id amount_ct : Z) :
  stocked inv → stocked (retrieve_product id amount_ct inv).2.
Proof.
  intros Hs.
  destruct (retrieve_product_state inv id amount_ct) as [->|(prod & Hl & H0 & ->)];
    [done|].
  intros k p. destruct (decide (id = k)) as [<-|Hne].
  - rewrite lookup_set_product_eq. intros [= <-]. simpl.
    specialize (Hs _ _ Hl). lia.
  - rewrite lookup_set_product_ne by done. apply Hs.
Qed.

(** X5. A product is never sold more often than it is in stock: [n]
    successful retrievals in a row need a stock of at least [n]. *)
Theorem retrievals_bounded_by_stock
  (inv inv' : Inventory.t) (id : Z) (prod : Product.t) (n : nat) :
  _products inv !! id = Some prod → 0 ≤ Product.stock prod →
  retrievals id n inv inv' →
  Z.of_nat n ≤ Product.stock prod.
Proof.
  revert inv prod. induction n as [|n IH]; intros inv prod Hl Hs Hr; [lia|].
  inversion Hr as [|? ? amount_ct paid msg inv1 ? Hcall Hrest]; subst.
  apply retrieve_some_inv in Hcall as (p & Hp & H0 & _ & _ & _ & ->).
  assert (p = prod) as -> by congruence.
  specialize (IH _ (Product.take_one prod) (lookup_set_product_eq inv id _)).
  simpl in IH. specialize (IH ltac:(lia) Hrest). lia.
Qed.

End InventoryExtras.

(** ** The change algorithm: edge cases and shape of the result *)

Section CoinExtras.
Import VendingMachineModel.

#[local] Existing Instances flip_le_trans flip_le_antisymm flip_le_total.

Implicit Types (coins denoms l : list Z) (rest c d : Z).




Lemma greedy_spec_zero_coins denoms : (greedy_spec denoms 0).1 = [].
Proof.
  induction denoms as [|c denoms IH]; simpl; [reflexivity|].
  change (0 / c) with 0. rewrite Z.mul_0_l. change (0 - 0) with 0.
  by destruct (greedy_spec denoms 0) as [l leftover]; simpl in *; subst.
Qed.

Lemma counts_fit_zero denoms : counts_fit denoms 0 = true.
Proof.
  induction denoms as [|c denoms IH]; simpl; [reflexivity|].
  change (0 / c) with 0. rewrite Z.mul_0_l. change (0 - 0) with 0.
  by rewrite IH.
Qed.


Lemma amount_to_coins_zero_amount_both coin_set :
  Forall (λ c, c ≠ 0) coin_set →
  amount_to_coins 0 coin_set false = Ok (Some (Coins []))
  ∧ amount_to_coins 0 coin_set true = Ok (Some (PrettyCoins [])).
Proof.
  intros Hnz. unfold amount_to_coins.
  rewrite coin_loop_greedy; [|by apply sorted_reverse_Forall|apply counts_fit_zero].
  rewrite greedy_spec_zero_coins, greedy_spec_zero. done.
Qed.


(** X7. The amount 0 gives the empty list, not [None], for every
    collection of non-zero denominations, the empty one included, and in
    both output modes. *)
Theorem amount_to_coins_zero_amount (coin_set : list Z) (prettify : bool) :
  Forall (λ c, c ≠ 0) coin_set →
  amount_to_coins 0 coin_set prettify
  = Ok (Some (if prettify then PrettyCoins [] else Coins [])).
Proof.
  intros Hnz. destruct (amount_to_coins_zero_amount_both coin_set Hnz).
  by destruct prettify.
Qed.

(** X8. With no denominations at all, every amount other than 0 gives
    [None]. *)
Theorem amount_to_coins_no_denominations (amount_ct : Z) (prettify : bool) :
  amount_ct ≠ 0 → amount_to_coins amount_ct [] prettify = Ok None.
Proof.
  intros H. unfold amount_to_coins. simpl.
  by destruct (Z.eqb_spec amount_ct 0).
Qed.






Lemma sorted_reverse_head cmax coin_set :
  cmax ∈ coin_set → Forall (λ c, c ≤ cmax) coin_set →
  ∃ denoms, sorted_reverse coin_set = cmax :: denoms.
Proof.
  intros Hin Hmax.
  assert (cmax ∈ sorted_reverse coin_set) as Hin'.
  { unfold sorted_reverse. by rewrite merge_sort_Permutation. }
  pose proof (sorted_reverse_Forall _ _ Hmax) as Hmax'.
  pose proof (StronglySorted_merge_sort (flip Z.le) coin_set) as Hs.
  fold (sorted_reverse coin_set) in Hs.
  destruct (sorted_reverse coin_set) as [|c1 denoms]; [by apply elem_of_nil in Hin'|].
  exists denoms. f_equal.
  apply StronglySorted_inv in Hs as [_ Hs].
  inversion Hmax' as [|? ? Hc1 _]; subst.
  apply elem_of_cons in Hin' as [->|Hin']; [done|].
  rewrite Forall_forall in Hs. specialize (Hs _ Hin'). unfold flip in Hs. lia.
Qed.

(** X10. A negative amount is not refused: with positive denominations
    the largest one sets the amount to its remainder modulo that
    denomination, so a returned list sums to [amount_ct % cmax] and never
    to the amount itself. *)
Theorem amount_to_coins_negative_amount (amount_ct cmax : Z) (coin_set l : list Z) :
  amount_ct < 0 → Forall (λ c, 0 < c) coin_set →
  cmax ∈ coin_set → Forall (λ c, c ≤ cmax) coin_set →
  amount_to_coins amount_ct coin_set false = Ok (Some (Coins l)) →
  sum l = amount_ct mod cmax ∧ sum l ≠ amount_ct.
Proof.
  intros Hneg Hpos Hin Hmax.
  assert (Forall (λ c, c ≠ 0) coin_set) as Hnz.
  { eapply Forall_impl; [exact Hpos|]. simpl. lia. }
  rewrite (amount_to_coins_raw _ _ Hnz).
  destruct (counts_fit _ _); [|discriminate].
  destruct (sorted_reverse_head cmax coin_set Hin Hmax) as [denoms E].
  pose proof (sorted_reverse_Forall _ _ Hpos) as Hpos'. rewrite E in *.
  inversion Hpos' as [|? ? Hc Hd]; subst. simpl.
  assert (rest_nonneg : 0 ≤ amount_ct - amount_ct / cmax * cmax < cmax).
  { pose proof (Z.mod_pos_bound amount_ct cmax Hc) as Hm.
    rewrite (Z.mod_eq amount_ct cmax) in Hm by lia. lia. }
  assert (amount_ct / cmax < 0) as Hq by (apply Z.div_lt_upper_bound; lia).
  pose proof (greedy_spec_sum denoms _ (proj1 rest_nonneg) Hd) as Hsum.
  destruct (greedy_spec denoms _) as [l' leftover]. simpl in *.
  destruct (Z.eqb_spec leftover 0) as [->|]; [|discriminate].
  intros [= <-]. rewrite Z2Nat.nonpos by lia. simpl.
  rewrite (Z.mod_eq amount_ct cmax) by lia. lia.
Qed.

Lemma greedy_spec_sorted denoms : ∀ rest,
  StronglySorted (flip Z.le) denoms →
  StronglySorted (flip Z.le) (greedy_spec denoms rest).1.
Proof.
  induction denoms as [|c denoms IH]; intros rest Hs; simpl; [constructor|].
  apply StronglySorted_inv in Hs as [Hs Hc].
  specialize (IH (rest - rest / c * c) Hs).
  pose proof (greedy_spec_elem denoms (rest - rest / c * c)) as Hel.
  destruct (greedy_spec denoms _) as [l leftover]. simpl in *.
  apply StronglySorted_app_2; [| |exact IH].
  - intros x1 x2 H1 H2. apply elem_of_replicate in H1 as [-> _].
    rewrite Forall_forall in Hc. apply Hc, Hel, H2.
  - generalize (Z.to_nat (rest / c)). intros n.
    induction n as [|n IHn]; simpl; constructor; [done|].
    apply Forall_forall. intros x Hx. apply elem_of_replicate in Hx as [-> _].
    unfold flip. lia.
Qed.

(** X11. The coins come largest first: a returned list is in descending
    order, whatever the order of the denominations given. *)
Theorem amount_to_coins_descending (amount_ct : Z) (coin_set l : list Z) :
  Forall (λ c, c ≠ 0) coin_set →
  amount_to_coins amount_ct coin_set false = Ok (Some (Coins l)) →
  StronglySorted (flip Z.le) l.
Proof.
  intros Hnz. rewrite (amount_to_coins_raw _ _ Hnz).
  destruct (counts_fit _ _); [|discriminate].
  destruct (_ =? 0); [|discriminate]. intros [= <-].
  apply greedy_spec_sorted, StronglySorted_merge_sort; apply _.
Qed.

Lemma default_coins_elem c : c ∈ DEFAULT_COINS ↔ c ∈ [100; 50; 20; 10; 5].
Proof.
  rewrite <- default_coins_list. unfold sorted_reverse.
  rewrite merge_sort_Permutation. symmetry. apply elem_of_elements.
Qed.

(** A list over the default denominations, counted by denomination. *)
Lemma default_coins_count l :
  Forall (λ c, c ∈ [100; 50; 20; 10; 5]) l →
  ∃ n100 n50 n20 n10 n5,
    0 ≤ n100 ∧ 0 ≤ n50 ∧ 0 ≤ n20 ∧ 0 ≤ n10 ∧ 0 ≤ n5
    ∧ sum l = 100 * n100 + 50 * n50 + 20 * n20 + 10 * n10 + 5 * n5
    ∧ Z.of_nat (length l) = n100 + n50 + n20 + n10 + n5.
Proof.
  induction 1 as [|c l Hc _ (n100 & n50 & n20 & n10 & n5 & IH)].
  - exists 0, 0, 0, 0, 0. simpl. lia.
  - rewrite !elem_of_cons, elem_of_nil in Hc. simpl.
    destruct Hc as [->|[->|[->|[->|[->|[]]]]]].
    + exists (n100 + 1), n50, n20, n10, n5. lia.
    + exists n100, (n50 + 1), n20, n10, n5. lia.
    + exists n100, n50, (n20 + 1), n10, n5. lia.
    + exists n100, n50, n20, (n10 + 1), n5. lia.
    + exists n100, n50, n20, n10, (n5 + 1). lia.
Qed.

Lemma default_greedy_minimal a n100 n50 n20 n10 n5 :
  0 ≤ n100 → 0 ≤ n50 → 0 ≤ n20 → 0 ≤ n10 → 0 ≤ n5 →
  a = 100 * n100 + 50 * n50 + 20 * n20 + 10 * n10 + 5 * n5 →
  let r1 := a - a / 100 * 100 in
  let r2 := r1 - r1 / 50 * 50 in
  let r3 := r2 - r2 / 20 * 20 in
  let r4 := r3 - r3 / 10 * 10 in
  0 ≤ a / 100 ∧ 0 ≤ r1 / 50 ∧ 0 ≤ r2 / 20 ∧ 0 ≤ r3 / 10 ∧ 0 ≤ r4 / 5
  ∧ a / 100 + r1 / 50 + r2 / 20 + r3 / 10 + r4 / 5 ≤ n100 + n50 + n20 + n10 + n5.
Proof.
  intros. subst r1 r2 r3 r4. Z.div_mod_to_equations. lia.
Qed.

(** X12. With the default denominations the greedy result is the shortest
    one: no list of default coins with the same sum has fewer coins. *)
Theorem amount_to_coins_default_fewest (amount_ct : Z) (l l' : list Z) :
  amount_to_coins amount_ct (elements DEFAULT_COINS) false = Ok (Some (Coins l)) →
  Forall (λ c, c ∈ DEFAULT_COINS) l' → sum l' = amount_ct →
  (length l ≤ length l')%nat.
Proof.
  intros Hl Hin Hsum.
  assert (Forall (λ c, c ≠ 0) (elements DEFAULT_COINS)) as Hnz.
  { apply Forall_forall. intros c Hc.
    apply elem_of_elements, default_coins_elem in Hc.
    rewrite !elem_of_cons, elem_of_nil in Hc. lia. }
  rewrite (amount_to_coins_raw _ _ Hnz), default_coins_list in Hl.
  destruct (counts_fit _ _); [|discriminate].
  destruct (_ =? 0); [|discriminate]. injection Hl as <-.
  assert (Forall (λ c, c ∈ [100; 50; 20; 10; 5]) l') as Hin'.
  { eapply Forall_impl; [exact Hin|]. intros c. apply default_coins_elem. }
  destruct (default_coins_count l' Hin')
    as (n100 & n50 & n20 & n10 & n5 & H100 & H50 & H20 & H10 & H5 & Hs & Hlen).
  rewrite Hsum in Hs.
  pose proof (default_greedy_minimal amount_ct _ _ _ _ _ H100 H50 H20 H10 H5 Hs) as Hg.
  cbv zeta in Hg. simpl.
  rewrite !length_app, !length_replicate. simpl. lia.
Qed.

Lemma SFdiv_core_binary_nonneg m1 m2 :
  0 ≤ m1 → 0 < m2 →
  0 ≤ (SFdiv_core_binary Py.prec Py.emax m1 0 m2 0).1.1.
Proof.
  intros H1 H2. unfold SFdiv_core_binary.
  set (m' := match _ with Z.pos _ => _ | _ => _ end).
  assert (0 ≤ m') as Hm'.
  { subst m'. destruct (0 - 0 - _) as [|n|n]; try lia.
    apply Z.shiftl_nonneg. exact H1. }
  pose proof (Z.div_pos m' m2 Hm' H2) as Hq. unfold Z.div in Hq.
  by destruct (Z.div_eucl m' m2) as [q r].
Qed.

(** [int(b / 100)] has a value for every int below [2^1023] in absolute
    value. *)
Lemma int_truediv_100_returns b :
  Z.abs b < 2 ^ 1023 → ∃ f n, Py.truediv b 100 = Ok f ∧ Py.int_of_float f = Ok n.
Proof.
  intros Hb. destruct (truediv_100_returns b Hb) as [f Hf].
  exists f. assert (∃ n, Py.int_of_float f = Ok n) as [n Hn]; [|by exists n].
  unfold Py.truediv in Hf. simpl (100 =? 0) in Hf. cbv iota in Hf.
  destruct (Z.eqb_spec b 0) as [|Hnz].
  { injection Hf as <-. by eexists. }
  pose proof (SFdiv_core_binary_nonneg (Z.abs b) (Z.abs 100)
                ltac:(lia) ltac:(lia)) as Hq.
  destruct (SFdiv_core_binary Py.prec Py.emax (Z.abs b) 0 (Z.abs 100) 0)
    as [[q e] l]. simpl in Hq.
  pose proof (binary_round_aux_signed (xorb (b <? 0) (100 <? 0)) q e l Hq) as Hs.
  destruct Hs as [| |m ex]; try discriminate; injection Hf as <-; by eexists.
Qed.

Lemma pretty_coin_returns c : Z.abs c < 2 ^ 1023 → ∃ s, pretty_coin c = Ok s.
Proof.
  intros Hc. unfold pretty_coin. destruct (c >=? 100); [|by eexists].
  destruct (int_truediv_100_returns c Hc) as (f & n & -> & Hn). simpl.
  rewrite Hn. by eexists.
Qed.

Lemma mapM_pretty_coin_returns l :
  Forall (λ c, ∃ s, pretty_coin c = Ok s) l →
  ∃ strs, mapM pretty_coin l = Ok strs
          ∧ Forall2 (λ c s, pretty_coin c = Ok s) l strs.
Proof.
  induction 1 as [|c l [s Hs] _ (strs & IH & IH2)]; simpl.
  - exists []. split; [done|constructor].
  - rewrite Hs. simpl. rewrite IH. simpl. exists (s :: strs).
    split; [done|]. by constructor.
Qed.

(** X13. [prettify] changes only the rendering: with non-zero
    denominations below [2^1023] it fails exactly when the raw mode fails,
    and otherwise returns one string per raw coin, in the same order, each
    the rendering of that coin. *)
Theorem amount_to_coins_prettify_same_coins (amount_ct : Z) (coin_set : list Z) :
  Forall (λ c, c ≠ 0 ∧ Z.abs c < 2 ^ 1023) coin_set →
  (amount_to_coins amount_ct coin_set false = Ok None →
   amount_to_coins amount_ct coin_set true = Ok None)
  ∧ (∀ l, amount_to_coins amount_ct coin_set false = Ok (Some (Coins l)) →
     ∃ strs, amount_to_coins amount_ct coin_set true = Ok (Some (PrettyCoins strs))
             ∧ Forall2 (λ c s, pretty_coin c = Ok s) l strs).
Proof.
  intros Hall.
  assert (Forall (λ c, c ≠ 0) (sorted_reverse coin_set)) as Hnz.
  { apply sorted_reverse_Forall. eapply Forall_impl; [exact Hall|]. simpl. tauto. }
  assert (Forall (λ c, ∃ s, pretty_coin c = Ok s)
            (greedy_spec (sorted_reverse coin_set) amount_ct).1) as Hp.
  { apply Forall_forall. intros c Hc. apply greedy_spec_elem in Hc.
    apply pretty_coin_returns.
    pose proof (sorted_reverse_Forall _ _ Hall) as Hall'.
    rewrite Forall_forall in Hall'. by apply Hall'. }
  unfold amount_to_coins. rewrite coin_loop_cases by done.
  destruct (counts_fit _ _); [|split; [discriminate|intros l; discriminate]].
  destruct (greedy_spec (sorted_reverse coin_set) amount_ct) as [l rest].
  simpl in *. destruct (rest =? 0); simpl.
  - split; [discriminate|]. intros l' [= <-].
    destruct (mapM_pretty_coin_returns l Hp) as (strs & -> & H2).
    by exists strs.
  - split; [done|discriminate].
Qed.

End CoinExtras.

(** ** The machine: change, purchases and their composition *)

Section MachineExtras.
Import VendingMachineModel.

Implicit Types (m : VendingMachineModel.t).

Lemma set_balance_twice b b' m : set_balance b (set_balance b' m) = set_balance b m.
Proof. reflexivity. Qed.

Lemma default_coins_nonzero m : default_coins m → Forall (λ c, c ≠ 0) (_coins m).
Proof.
  intros ->. rewrite default_coins_list. repeat constructor; lia.
Qed.





Lemma pretty_coin_default_eq c :
  c ∈ [100; 50; 20; 10; 5] → pretty_coin c = Ok (pretty_default c).
Proof.
  rewrite !elem_of_cons, elem_of_nil.
  intros [->|[->|[->|[->|[->|[]]]]]]; vm_compute; reflexivity.
Qed.

Lemma mapM_pretty_coin_default_eq l :
  Forall (λ c, c ∈ [100; 50; 20; 10; 5]) l →
  mapM pretty_coin l = Ok (map pretty_default l).
Proof.
  induction 1 as [|c l Hc _ IH]; simpl; [reflexivity|].
  rewrite (pretty_coin_default_eq c Hc). simpl. rewrite IH. reflexivity.
Qed.

(** X16. On a machine, [return_coins] with [prettify] returns the coins
    of the raw mode rendered one by one, a 100 as one euro and every other
    coin in cents, and leaves the same machine. *)
Theorem return_coins_pretty_default m (l : list Z) m' :
  default_coins m →
  return_coins false m = (Ok (Some (Coins l)), m') →
  return_coins true m = (Ok (Some (PrettyCoins (map pretty_default l))), m').
Proof.
  intros Hd. red in Hd. rewrite default_coins_list in Hd.
  rewrite !return_coins_eq, Hd. unfold amount_to_coins.
  change (sorted_reverse [100; 50; 20; 10; 5]) with [100; 50; 20; 10; 5].
  rewrite coin_loop_cases by (repeat constructor; lia).
  destruct (counts_fit _ _); [|discriminate].
  assert (Forall (λ c, c ∈ [100; 50; 20; 10; 5])
            (greedy_spec [100; 50; 20; 10; 5] (_balance m)).1) as Hin.
  { apply Forall_forall. intros x Hx. by eapply greedy_spec_elem. }
  destruct (greedy_spec [100; 50; 20; 10; 5] (_balance m)) as [l0 rest].
  simpl in *. destruct (rest =? 0); simpl; [|discriminate].
  intros [= <- <-]. by rewrite (mapM_pretty_coin_default_eq l0 Hin).
Qed.

(** X17. A purchase is all or nothing.  Either [buy_product] returns no
    price and the machine is exactly as before, or it returns a price and
    then one unit has left the stock of that product and the price has left
    the balance, nothing else having changed. *)
Theorem buy_product_atomic m (id : Z) :
  ((buy_product id m).2 = m
   ∧ ∀ paid msg, (buy_product id m).1 ≠ Ok (Some paid, msg))
  ∨ ∃ prod paid msg,
      Inventory._products (_inventory m) !! id = Some prod
      ∧ Inventory.price_ct prod = Ok paid
      ∧ buy_product id m
        = (Ok (Some paid, msg),
           {| _inventory := Inventory.set_product id (Product.take_one prod) (_inventory m);
              _balance := _balance m - paid;
              _coins := _coins m |}).
Proof.
  rewrite buy_product_eq.
  destruct (Inventory.retrieve_product id (_balance m) (_inventory m))
    as [[[[paid|] msg]|e] inv'] eqn:E.
  - right. apply retrieve_some_inv in E as (prod & Hl & _ & Hp & _ & _ & ->).
    by exists prod, paid, msg.
  - left. apply retrieve_none_inv in E as ->. rewrite set_inventory_id. done.
  - left. apply retrieve_raise_inv in E as ->. rewrite set_inventory_id. done.
Qed.


(** X19. The denominations of a machine never change: they are the
    default ones, largest first, after construction and after any sequence
    of operations. *)
Theorem machine_keeps_default_coins
  (initial_balance : Z) (inventory : option Inventory.t) (os : list operation) :
  _coins (after_all os (__init__ initial_balance inventory)) = [100; 50; 20; 10; 5].
Proof.
  rewrite <- default_coins_list.
  change (sorted_reverse (elements DEFAULT_COINS))
    with (_coins (__init__ initial_balance inventory)).
  generalize (__init__ initial_balance inventory).
  induction os as [|o os IH]; intros m; simpl; [done|].
  by rewrite IH, after_coins.
Qed.

End MachineExtras.

(** ** The change algorithm: order of the denominations, and a limit *)

Section CoinOrder.
Import VendingMachineModel.

#[local] Existing Instances flip_le_trans flip_le_antisymm flip_le_total.

(** X20. The order in which the denominations are given does not matter:
    two arrangements of the same denominations give the same result. *)
Theorem amount_to_coins_order_irrelevant
  (amount_ct : Z) (coin_set coin_set' : list Z) (prettify : bool) :
  coin_set ≡ₚ coin_set' →
  amount_to_coins amount_ct coin_set prettify
  = amount_to_coins amount_ct coin_set' prettify.
Proof.
  intros Hp. unfold amount_to_coins.
  replace (sorted_reverse coin_set') with (sorted_reverse coin_set); [done|].
  apply sorted_reverse_unique.
  - unfold sorted_reverse. by rewrite merge_sort_Permutation.
  - apply Sorted_merge_sort, _.
Qed.

Lemma coin_loop_app coins1 : ∀ coins2 result rest,
  coin_loop (coins1 ++ coins2) result rest
  = match coin_loop coins1 result rest with
    | Ok (result', rest') => coin_loop coins2 result' rest'
    | Raise e => Raise e
    end.
Proof.
  induction coins1 as [|c coins1 IH]; intros coins2 result rest; simpl;
    [reflexivity|].
  destruct (c =? 0); [reflexivity|].
  destruct (Py.repeat c (rest / c)) as [more|e]; [apply IH|reflexivity].
Qed.

(** A denomination met a second time in a row takes nothing. *)
Lemma coin_loop_twice c coins result rest :
  coin_loop (c :: c :: coins) result rest = coin_loop (c :: coins) result rest.
Proof.
  simpl. destruct (Z.eqb_spec c 0) as [|Hc]; [reflexivity|].
  destruct (Py.repeat c (rest / c)) as [more|e]; [|reflexivity].
  rewrite (Z.mod_div rest c Hc), Z.mod_mod by done.
  unfold Py.repeat. simpl. by rewrite app_nil_r.
Qed.

Lemma sorted_reverse_duplicate c coin_set :
  c ∈ coin_set →
  ∃ denoms1 denoms2,
    sorted_reverse coin_set = denoms1 ++ c :: denoms2
    ∧ sorted_reverse (c :: coin_set) = denoms1 ++ c :: c :: denoms2.
Proof.
  intros Hin.
  assert (c ∈ sorted_reverse coin_set) as Hin'.
  { unfold sorted_reverse. by rewrite merge_sort_Permutation. }
  apply list_elem_of_split in Hin' as (denoms1 & denoms2 & E).
  exists denoms1, denoms2. split; [exact E|].
  pose proof (StronglySorted_merge_sort (flip Z.le) coin_set) as Hs.
  fold (sorted_reverse coin_set) in Hs. rewrite E in Hs.
  apply sorted_reverse_unique.
  - rewrite <- Permutation_middle. constructor.
    rewrite <- E. unfold sorted_reverse. by rewrite merge_sort_Permutation.
  - apply StronglySorted_Sorted.
    apply StronglySorted_app in Hs as (H12 & H1 & H2).
    apply StronglySorted_app. split_and!; [|exact H1|].
    + intros x1 x2 Hx1 Hx2. apply elem_of_cons in Hx2 as [->|Hx2].
      * apply H12; [done|]. apply elem_of_cons. by left.
      * by apply H12.
    + constructor; [exact H2|]. constructor; [unfold flip; lia|].
      by apply StronglySorted_inv in H2 as [_ H2].
Qed.

(** X21. Giving a denomination twice changes nothing: the result depends
    on which denominations are given, not on how often. *)
Theorem amount_to_coins_duplicate_irrelevant
  (amount_ct c : Z) (coin_set : list Z) (prettify : bool) :
  c ∈ coin_set →
  amount_to_coins amount_ct (c :: coin_set) prettify
  = amount_to_coins amount_ct coin_set prettify.
Proof.
  intros Hin.
  destruct (sorted_reverse_duplicate c coin_set Hin) as (d1 & d2 & E1 & E2).
  unfold amount_to_coins. rewrite E1, E2, !coin_loop_app.
  destruct (coin_loop d1 [] amount_ct) as [[result rest]|e]; [|reflexivity].
  by rewrite coin_loop_twice.
Qed.

(** X22. [None] does not mean that no change exists.  The docstring says
    [None] is returned when correct change cannot be given with the
    available coins, but the greedy pass also gives up on amounts that the
    denominations can make: 6 from the denominations 4 and 3 is [None]
    although 3 + 3 = 6. *)
Theorem amount_to_coins_none_despite_change :
  ∃ (amount_ct : Z) (coin_set l : list Z),
    Forall (λ c, 0 < c) coin_set
    ∧ Forall (λ c, c ∈ coin_set) l ∧ sum l = amount_ct
    ∧ amount_to_coins amount_ct coin_set false = Ok None.
Proof.
  exists 6, [4; 3], [3; 3]. split_and!.
  - repeat constructor; lia.
  - repeat constructor; set_solver.
  - reflexivity.
  - reflexivity.
Qed.

End CoinOrder.

(** ** [decolor] undoes the coloring *)

Section Decolor.

Lemma prefix_esc_plain old ch s :
  ch ≠ "027"%char → String.prefix (String "027" old) (String ch s) = false.
Proof.
  intros H. cbn [String.prefix].
  destruct (ascii_dec "027" ch) as [E|]; [by destruct H|reflexivity].
Qed.

(** A pattern that starts with the escape character finds nothing in a
    plain string and leaves it in place. *)
Lemma remove_go_plain_app old s t :
  plain s = true →
  remove_go (String "027" old) 0 (s +:+ t) = s +:+ remove_go (String "027" old) 0 t.
Proof.
  induction s as [|ch s IH]; intros Hp; [reflexivity|].
  simpl in Hp. apply andb_prop in Hp as [Hch Hp].
  apply negb_true_iff, Ascii.eqb_neq in Hch.
  change (String ch s +:+ t) with (String ch (s +:+ t)).
  cbn [remove_go]. rewrite (prefix_esc_plain old ch _ Hch), (IH Hp). reflexivity.
Qed.

Lemma remove_go_plain old s :
  plain s = true → remove_go (String "027" old) 0 s = s.
Proof.
  induction s as [|ch s IH]; intros Hp; [reflexivity|].
  simpl in Hp. apply andb_prop in Hp as [Hch Hp].
  apply negb_true_iff, Ascii.eqb_neq in Hch.
  cbn [remove_go]. rewrite (prefix_esc_plain old ch _ Hch), (IH Hp). reflexivity.
Qed.

Lemma color_code_cases P :
  P ∈ color_codes →
  P = Fore.YELLOW ∨ P = Fore.RED ∨ P = Fore.GREEN ∨ P = Fore.RESET.
Proof.
  unfold color_codes. rewrite !elem_of_cons, elem_of_nil. tauto.
Qed.

Lemma remove_plain P s t :
  P ∈ color_codes → plain s = true → remove P (s +:+ t) = s +:+ remove P t.
Proof.
  intros HP Hs.
  destruct (color_code_cases P HP) as [->|[->|[->| ->]]];
    by apply remove_go_plain_app.
Qed.

Lemma remove_same C t : C ∈ color_codes → remove C (C +:+ t) = remove C t.
Proof.
  intros HC.
  destruct (color_code_cases C HC) as [->|[->|[->| ->]]];
    destruct t; reflexivity.
Qed.

Lemma remove_other P C t :
  P ∈ color_codes → C ∈ color_codes → P ≠ C →
  remove P (C +:+ t) = C +:+ remove P t.
Proof.
  intros HP HC Hne.
  destruct (color_code_cases P HP) as [->|[->|[->| ->]]];
    destruct (color_code_cases C HC) as [->|[->|[->| ->]]];
    try (by destruct Hne); reflexivity.
Qed.

Lemma remove_same_end C : C ∈ color_codes → remove C C = "".
Proof.
  intros HC.
  destruct (color_code_cases C HC) as [->|[->|[->| ->]]]; reflexivity.
Qed.

Lemma remove_other_end P C :
  P ∈ color_codes → C ∈ color_codes → P ≠ C → remove P C = C.
Proof.
  intros HP HC Hne.
  destruct (color_code_cases P HP) as [->|[->|[->| ->]]];
    destruct (color_code_cases C HC) as [->|[->|[->| ->]]];
    try (by destruct Hne); reflexivity.
Qed.

Lemma append_empty_r s : s +:+ "" = s.
Proof.
  induction s as [|ch s IH]; [reflexivity|].
  change (String ch (s +:+ "") = String ch s). by f_equal.
Qed.

Lemma color_codes_distinct :
  Fore.YELLOW ≠ Fore.RED ∧ Fore.YELLOW ≠ Fore.GREEN ∧ Fore.YELLOW ≠ Fore.RESET
  ∧ Fore.RED ≠ Fore.GREEN ∧ Fore.RED ≠ Fore.RESET ∧ Fore.GREEN ≠ Fore.RESET.
Proof. split_and!; intros E; vm_compute in E; discriminate. Qed.

(** One pattern against a text wrapped in a color code. *)
Lemma remove_wrapped P C s :
  P ∈ color_codes → C ∈ color_codes → C ≠ Fore.RESET → plain s = true →
  remove P (C +:+ s +:+ Fore.RESET)
  = if decide (P = C) then s +:+ Fore.RESET
    else if decide (P = Fore.RESET) then C +:+ s
    else C +:+ s +:+ Fore.RESET.
Proof.
  intros HP HC HR Hs.
  assert (Fore.RESET ∈ color_codes) as HRm
    by (unfold color_codes; rewrite !elem_of_cons; auto 10).
  destruct (decide (P = C)) as [->|Hne].
  - rewrite remove_same, remove_plain, remove_other_end by done. reflexivity.
  - rewrite remove_other, remove_plain by done.
    destruct (decide (P = Fore.RESET)) as [->|Hne'].
    + rewrite remove_same_end by done. by rewrite append_empty_r.
    + by rewrite remove_other_end.
Qed.

Lemma remove_unwrapped P s :
  P ∈ color_codes → plain s = true →
  remove P (s +:+ Fore.RESET) = if decide (P = Fore.RESET) then s else s +:+ Fore.RESET.
Proof.
  intros HP Hs.
  assert (Fore.RESET ∈ color_codes) as HRm
    by (unfold color_codes; rewrite !elem_of_cons; auto 10).
  rewrite remove_plain by done.
  destruct (decide (P = Fore.RESET)) as [->|Hne].
  - rewrite remove_same_end by done. by rewrite append_empty_r.
  - by rewrite remove_other_end.
Qed.

Lemma decolor_wrapped (code : string) (s : string) :
  code ∈ [Fore.RED; Fore.YELLOW; Fore.GREEN] → plain s = true →
  decolor (code +:+ s +:+ Fore.RESET) = s.
Proof.
  rewrite !elem_of_cons, elem_of_nil. intros Hc Hp. unfold decolor.
  destruct color_codes_distinct as (YR & YG & YX & RG & RX & GX).
  assert (∀ P, P ∈ color_codes ↔
    P = Fore.YELLOW ∨ P = Fore.RED ∨ P = Fore.GREEN ∨ P = Fore.RESET) as Hm.
  { intros P. unfold color_codes. rewrite !elem_of_cons, elem_of_nil. tauto. }
  destruct Hc as [->|[->|[->|[]]]].
  - rewrite (remove_wrapped Fore.YELLOW Fore.RED) by (rewrite ?Hm; auto).
    rewrite decide_False, decide_False by done.
    rewrite (remove_wrapped Fore.RED Fore.RED) by (rewrite ?Hm; auto).
    rewrite decide_True by done.
    rewrite (remove_unwrapped Fore.GREEN) by (rewrite ?Hm; auto).
    rewrite decide_False by done.
    rewrite (remove_unwrapped Fore.RESET) by (rewrite ?Hm; auto).
    by rewrite decide_True.
  - rewrite (remove_wrapped Fore.YELLOW Fore.YELLOW) by (rewrite ?Hm; auto).
    rewrite decide_True by done.
    rewrite (remove_unwrapped Fore.RED) by (rewrite ?Hm; auto).
    rewrite decide_False by done.
    rewrite (remove_unwrapped Fore.GREEN) by (rewrite ?Hm; auto).
    rewrite decide_False by done.
    rewrite (remove_unwrapped Fore.RESET) by (rewrite ?Hm; auto).
    by rewrite decide_True.
  - rewrite (remove_wrapped Fore.YELLOW Fore.GREEN) by (rewrite ?Hm; auto).
    rewrite decide_False, decide_False by done.
    rewrite (remove_wrapped Fore.RED Fore.GREEN) by (rewrite ?Hm; auto).
    rewrite decide_False, decide_False by done.
    rewrite (remove_wrapped Fore.GREEN Fore.GREEN) by (rewrite ?Hm; auto).
    rewrite decide_True by done.
    rewrite (remove_unwrapped Fore.RESET) by (rewrite ?Hm; auto).
    by rewrite decide_True.
Qed.

(** X23. [decolor] gives back the text that [msg_error], [msg_attn] or
    [msg_confirm] wrapped, for every text without an escape character. *)
Theorem decolor_msg (s : string) :
  plain s = true →
  decolor (msg_error s) = s ∧ decolor (msg_attn s) = s ∧ decolor (msg_confirm s) = s.
Proof.
  intros Hp. unfold msg_error, msg_attn, msg_confirm.
  split_and!; apply decolor_wrapped; try exact Hp;
    rewrite !elem_of_cons; auto.
Qed.

Example remove_examples :
  map (λ p, remove p.1 p.2) [("aa", "aaa"); ("X", "aXbXc"); ("", "abc"); ("abc", "ab")]
  = ["a"; "abc"; "abc"; "ab"].
Proof. reflexivity. Qed.

Example decolor_sold_out :
  decolor (Inventory.msg_sold_out 3 (Product.mk 3 "Soy Milk" (Py.literal 100 2) 0))
  = "Product 3 (Soy Milk) is sold out.".
Proof. reflexivity. Qed.

End Decolor.

(** ** The further properties at concrete inputs *)

Section ExtraWitnesses.
Import VendingMachineModel.

Lemma retrieve_product_keeps_stock_nonneg_witness :
  stocked (Inventory.retrieve_product 1 500 test_inventory).2.
Proof.
  apply (retrieve_product_keeps_stock_nonneg test_inventory 1 500).
  apply init_stocked. repeat constructor; simpl; lia.
Defined.

Lemma retrievals_bounded_by_stock_witness : Z.of_nat 2 ≤ 2.
Proof.
  pose (prod := Product.mk 2 "Red Bull + Vodka" (Py.literal 350 2) 2).
  destruct (retrievals_exist 2 350 2 test_inventory prod) as [inv' Hr];
    [reflexivity..|].
  apply (retrievals_bounded_by_stock test_inventory inv' 2 prod 2);
    [reflexivity|simpl; lia|exact Hr].
Defined.


Lemma amount_to_coins_zero_amount_witness :
  amount_to_coins 0 [5; 10] true = Ok (Some (PrettyCoins [])).
Proof.
  apply (amount_to_coins_zero_amount [5; 10] true). repeat constructor; lia.
Defined.

Lemma amount_to_coins_no_denominations_witness :
  amount_to_coins 3 [] false = Ok None.
Proof. apply (amount_to_coins_no_denominations 3 false). lia. Defined.


Lemma amount_to_coins_negative_amount_witness :
  sum [5] = (-95) mod 100 ∧ sum [5] ≠ -95.
Proof.
  apply (amount_to_coins_negative_amount (-95) 100 [5; 10; 20; 50; 100] [5]).
  - lia.
  - repeat constructor; lia.
  - rewrite !elem_of_cons. auto 10.
  - repeat constructor; lia.
  - reflexivity.
Defined.

Lemma amount_to_coins_descending_witness :
  StronglySorted (flip Z.le) [50; 20; 10; 5].
Proof.
  apply (amount_to_coins_descending 85 [5; 10; 20; 50; 100] [50; 20; 10; 5]).
  - repeat constructor; lia.
  - reflexivity.
Defined.

Lemma amount_to_coins_default_fewest_witness :
  (length [50; 10] ≤ length [20; 20; 20])%nat.
Proof.
  apply (amount_to_coins_default_fewest 60 [50; 10] [20; 20; 20]).
  - reflexivity.
  - repeat constructor; apply default_coins_elem; rewrite !elem_of_cons; auto.
  - reflexivity.
Defined.

Lemma amount_to_coins_prettify_same_coins_witness :
  ∃ strs, amount_to_coins 145 [100; 50; 20; 10; 5] true = Ok (Some (PrettyCoins strs))
          ∧ Forall2 (λ c s, pretty_coin c = Ok s) [100; 20; 20; 5] strs.
Proof.
  destruct (amount_to_coins_prettify_same_coins 145 [100; 50; 20; 10; 5]) as [_ H].
  - repeat constructor; lia.
  - apply H. reflexivity.
Defined.



Lemma return_coins_pretty_default_witness :
  return_coins true (test_machine 145)
  = (Ok (Some (PrettyCoins ["1€"; "20ct"; "20ct"; "5ct"])), test_machine 0).
Proof.
  apply (return_coins_pretty_default (test_machine 145) [100; 20; 20; 5]
           (test_machine 0)); reflexivity.
Defined.


Lemma amount_to_coins_order_irrelevant_witness :
  amount_to_coins 15 [5; 10] false = amount_to_coins 15 [10; 5] false.
Proof.
  apply (amount_to_coins_order_irrelevant 15 [5; 10] [10; 5] false).
  apply perm_swap.
Defined.

Lemma amount_to_coins_duplicate_irrelevant_witness :
  amount_to_coins 15 [5; 5; 10] false = amount_to_coins 15 [5; 10] false.
Proof.
  apply (amount_to_coins_duplicate_irrelevant 15 5 [5; 10] false).
  apply elem_of_cons. by left.
Defined.

Lemma decolor_msg_witness :
  decolor (msg_error "Insufficient funds.") = "Insufficient funds.".
Proof. apply (decolor_msg "Insufficient funds."). reflexivity. Defined.

End ExtraWitnesses.
